(** * Travel-Photos: the image-retrieval pipeline

    A shallow embedding of the two JavaScript programs of the repository:

    - the browser script ([searchPhotos]), which asks the Pexels API for
      photos of a place and selects five of them by resolution;
    - the [/api/tripadvisor] endpoint (the serverless function of
      [api/tripadvisor.js] and the Express route of the local server), which
      scrapes TripAdvisor and falls back to Wikipedia.

    Conventions of the embedding.

    - JavaScript strings are [string]s of code units below 256; [toLowerCase],
      [trim] and the [i] flag of regular expressions act on them as they do
      on that range.
    - Numbers of the JSON documents (pixel sizes, status codes, list caps)
      are integers, [Z].
    - A regular expression that is a literal piece of text is a substring
      test; the one pattern with digit classes is matched by a small
      hand-written matcher.
    - [cheerio.load] is outside the repository: an HTML document is given by
      the elements the selectors [$('a')] and [$('img')] yield, in document
      order, with the attributes the code reads.
    - [axios.get] is an oracle that answers each request from the history of
      the requests made so far, either with data or with a thrown error; the
      requests made and the lines written to the console are state.
    - [JSON.stringify] and [JSON.parse] are written out for the one shape
      the program gives them, the object [{ src, alt }] of two strings. *)

From Stdlib Require Import ZArith List Bool Lia Ascii String Permutation Sorted.
From Stdlib Require Import DecimalString.
Import ListNotations.

Set Implicit Arguments.
Local Open Scope Z_scope.

(* ================================================================== *)
(** * Strings *)
(* ================================================================== *)

Module JsString.
Local Open Scope string_scope.

(** [s.startsWith(p)], returning what follows the prefix. *)
Fixpoint strip_prefix (p s : string) : option string :=
  match p with
  | EmptyString => Some s
  | String a p' =>
      match s with
      | EmptyString => None
      | String b s' => if Ascii.eqb a b then strip_prefix p' s' else None
      end
  end.

Definition startsWith (s p : string) : bool :=
  match strip_prefix p s with Some _ => true | None => false end.

(** [s.includes(p)]; also [/p/.test(s)] for a pattern [p] that is literal
    text. *)
Fixpoint includes (s p : string) : bool :=
  startsWith s p ||
  match s with
  | EmptyString => false
  | String _ s' => includes s' p
  end.

(** [s.endsWith(p)]; also [/p$/.test(s)] for literal text [p]. *)
Fixpoint endsWith (s p : string) : bool :=
  String.eqb s p ||
  match s with
  | EmptyString => false
  | String _ s' => endsWith s' p
  end.

(** [s.replace(/p/, r)] for literal text [p] and a replacement [r] without
    [$]: the first occurrence only. *)
Fixpoint replace_first (p r s : string) : string :=
  match strip_prefix p s with
  | Some rest => r ++ rest
  | None =>
      match s with
      | EmptyString => EmptyString
      | String c s' => String c (replace_first p r s')
      end
  end.

Definition lower_char (c : ascii) : ascii :=
  let n := N_of_ascii c in
  if ((65 <=? n) && (n <=? 90))%N then ascii_of_N (n + 32)
  else if ((192 <=? n) && (n <=? 222) && negb (n =? 215))%N then ascii_of_N (n + 32)
  else c.

(** [s.toLowerCase()] *)
Fixpoint toLowerCase (s : string) : string :=
  match s with
  | EmptyString => EmptyString
  | String c s' => String (lower_char c) (toLowerCase s')
  end.

(** White space and line terminators, as [trim] sees them. *)
Definition is_space (c : ascii) : bool :=
  let n := N_of_ascii c in
  ((9 <=? n) && (n <=? 13) || (n =? 32) || (n =? 160))%N.

Fixpoint trimStart (s : string) : string :=
  match s with
  | EmptyString => EmptyString
  | String c s' => if is_space c then trimStart s' else s
  end.

Fixpoint trimEnd (s : string) : string :=
  match s with
  | EmptyString => EmptyString
  | String c s' =>
      match trimEnd s' with
      | EmptyString => if is_space c then EmptyString else String c EmptyString
      | r => String c r
      end
  end.

(** [s.trim()] *)
Definition trim (s : string) : string := trimEnd (trimStart s).

(** [!s] for a string. *)
Definition falsy (s : string) : bool :=
  match s with EmptyString => true | _ => false end.

(** [x || d] where [x] is a string or [undefined]. *)
Definition or_else (x : option string) (d : string) : string :=
  match x with
  | Some s => if falsy s then d else s
  | None => d
  end.

Definition is_digit (c : ascii) : bool :=
  let n := N_of_ascii c in ((48 <=? n) && (n <=? 57))%N.

Fixpoint skip_digits (s : string) : string :=
  match s with
  | EmptyString => EmptyString
  | String c s' => if is_digit c then skip_digits s' else s
  end.

(** The characters a size directive has between its two slashes. *)
Definition directive_char (c : ascii) : bool :=
  is_digit c || includes "-wh" (String c EmptyString).

(** [\d+] at the head of [s]: what follows the longest run of digits. *)
Definition digits1 (s : string) : option string :=
  match s with
  | String c s' => if is_digit c then Some (skip_digits s') else None
  | EmptyString => None
  end.

Definition and_then {A B} (x : option A) (f : A -> option B) : option B :=
  match x with Some a => f a | None => None end.

(** A match of [/\/-w\d+-h\d+\//] at the head of [s]: what follows it.
    After a run of digits the pattern wants a character that is no digit,
    so the longest run is the only one that can match. *)
Definition match_size_directive (s : string) : option string :=
  and_then (strip_prefix "/-w" s) (fun s1 =>
  and_then (digits1 s1) (fun s2 =>
  and_then (strip_prefix "-h" s2) (fun s3 =>
  and_then (digits1 s3) (fun s4 =>
  strip_prefix "/" s4)))).

(** [s.replace(/\/-w\d+-h\d+\//, '/')] *)
Fixpoint replace_size_directive (s : string) : string :=
  match match_size_directive s with
  | Some rest => "/" ++ rest
  | None =>
      match s with
      | EmptyString => EmptyString
      | String c s' => String c (replace_size_directive s')
      end
  end.

Definition hex_digit (n : N) : ascii :=
  if (n <? 10)%N then ascii_of_N (48 + n) else ascii_of_N (55 + n).

Definition percent (n : N) : string :=
  String "%" (String (hex_digit (n / 16)) (String (hex_digit (n mod 16)) EmptyString)).

(** The characters [encodeURIComponent] leaves alone. *)
Definition uri_unreserved (c : ascii) : bool :=
  let n := N_of_ascii c in
  ((65 <=? n) && (n <=? 90) || (97 <=? n) && (n <=? 122) || (48 <=? n) && (n <=? 57))%N
  || includes "-_.!~*'()" (String c EmptyString).

(** [encodeURIComponent(s)]: the UTF-8 bytes of every other character,
    each as [%XX].  The strings here hold code units below 256; on a string
    with a lone surrogate, which is none of them, the builtin throws a
    [URIError]. *)
Fixpoint encodeURIComponent (s : string) : string :=
  match s with
  | EmptyString => EmptyString
  | String c s' =>
      let n := N_of_ascii c in
      (if uri_unreserved c then String c EmptyString
       else if (n <? 128)%N then percent n
       else percent (192 + n / 64) ++ percent (128 + n mod 64))
      ++ encodeURIComponent s'
  end.

(** The code units of a string, and what [includes] decides: [p] occurs
    in [s]. *)
Definition chars (s : string) : list ascii := list_ascii_of_string s.

Definition occurs (p s : list ascii) : Prop := exists u v, s = (u ++ p ++ v)%list.

End JsString.

(* ================================================================== *)
(** * JSON texts *)
(* ================================================================== *)

Module Json.
Import JsString.
Local Open Scope string_scope.

Definition dquote : ascii := "034"%char.
Definition backslash : ascii := "092"%char.

Definition hex_lower (n : N) : ascii :=
  if (n <? 10)%N then ascii_of_N (48 + n) else ascii_of_N (87 + n).

(** How [JSON.stringify] writes one character of a string: the quote, the
    backslash and the control characters are escaped. *)
Definition escape (c : ascii) : string :=
  let n := N_of_ascii c in
  if (n =? 34)%N then String backslash (String dquote "")
  else if (n =? 92)%N then String backslash (String backslash "")
  else if (n =? 8)%N then String backslash "b"
  else if (n =? 9)%N then String backslash "t"
  else if (n =? 10)%N then String backslash "n"
  else if (n =? 12)%N then String backslash "f"
  else if (n =? 13)%N then String backslash "r"
  else if (n <? 32)%N then
    String backslash
      (String "u" (String "0" (String "0"
         (String (hex_lower (n / 16)) (String (hex_lower (n mod 16)) "")))))
  else String c "".

Fixpoint escape_all (s : string) : string :=
  match s with
  | EmptyString => EmptyString
  | String c s' => escape c ++ escape_all s'
  end.

(** [JSON.stringify(s)] for a string [s]. *)
Definition quote (s : string) : string :=
  String dquote (escape_all s ++ String dquote "").

Definition hex_value (c : ascii) : option N :=
  let n := N_of_ascii c in
  if ((48 <=? n) && (n <=? 57))%N then Some (n - 48)%N
  else if ((97 <=? n) && (n <=? 102))%N then Some (n - 87)%N
  else if ((65 <=? n) && (n <=? 70))%N then Some (n - 55)%N
  else None.

(** The character [\uXXXX] stands for, when it is one of the strings of
    this development. *)
Definition code_unit (h1 h2 h3 h4 : ascii) : option ascii :=
  match hex_value h1, hex_value h2, hex_value h3, hex_value h4 with
  | Some a, Some b, Some c, Some d =>
      let n := (((a * 16 + b) * 16 + c) * 16 + d)%N in
      if (n <? 256)%N then Some (ascii_of_N n) else None
  | _, _, _, _ => None
  end.

(** The character a backslash and [e] stand for. *)
Definition simple_escape (e : ascii) : option ascii :=
  let n := N_of_ascii e in
  if (n =? 34)%N then Some dquote
  else if (n =? 92)%N then Some backslash
  else if (n =? 47)%N then Some "/"%char
  else if (n =? 98)%N then Some (ascii_of_N 8)
  else if (n =? 116)%N then Some (ascii_of_N 9)
  else if (n =? 110)%N then Some (ascii_of_N 10)
  else if (n =? 102)%N then Some (ascii_of_N 12)
  else if (n =? 114)%N then Some (ascii_of_N 13)
  else None.

Definition cons_char (c : ascii) (r : option (string * string))
  : option (string * string) :=
  match r with
  | Some (s, rest) => Some (String c s, rest)
  | None => None
  end.

(** How [JSON.parse] reads a string whose opening quote has been read:
    the string, and the text after its closing quote; [None] is a
    [SyntaxError]. *)
Fixpoint read_string (s : string) : option (string * string) :=
  match s with
  | EmptyString => None
  | String c s' =>
      if Ascii.eqb c dquote then Some (EmptyString, s')
      else if Ascii.eqb c backslash then
        match s' with
        | EmptyString => None
        | String e s'' =>
            if Ascii.eqb e "u" then
              match s'' with
              | String h1 (String h2 (String h3 (String h4 s5))) =>
                  match code_unit h1 h2 h3 h4 with
                  | Some u => cons_char u (read_string s5)
                  | None => None
                  end
              | _ => None
              end
            else
              match simple_escape e with
              | Some u => cons_char u (read_string s'')
              | None => None
              end
        end
      else if (N_of_ascii c <? 32)%N then None
      else cons_char c (read_string s')
  end.

End Json.

(* ================================================================== *)
(** * Arrays *)
(* ================================================================== *)

Module JsArray.

Section Slice.
Context {A : Type}.

(** [arr.slice(0, end)] for an integer [end]: a negative [end] counts
    from the end of the array. *)
Definition slice0 (l : list A) (end_ : Z) : list A :=
  if end_ <? 0
  then firstn (Z.to_nat (Z.max 0 (Z.of_nat (List.length l) + end_))) l
  else firstn (Z.to_nat end_) l.

(** [a.concat(b)]. *)
Definition concat (a b : list A) : list A := a ++ b.

(** The position at which [x] is first seen in [l] ([length l] when it
    never is). *)
Fixpoint first_index (eqb : A -> A -> bool) (l : list A) (x : A) : nat :=
  match l with
  | [] => 0%nat
  | y :: l' => if eqb y x then 0%nat else S (first_index eqb l' x)
  end.
End Slice.

Section Sort.
Context {A : Type}.
(** The comparator handed to [sort]: negative when its first argument is
    to come first. *)
Variable cmp : A -> A -> Z.

(** [Array.prototype.sort] is stable: elements the comparator does not
    separate keep their relative order.  Any stable sort yields the same
    array for a consistent comparator; this is the insertion sort. *)
Fixpoint insert (x : A) (l : list A) : list A :=
  match l with
  | [] => [x]
  | y :: l' => if cmp x y <=? 0 then x :: y :: l' else y :: insert x l'
  end.

Fixpoint sort (l : list A) : list A :=
  match l with
  | [] => []
  | x :: l' => insert x (sort l')
  end.
End Sort.

End JsArray.

(* ================================================================== *)
(** * Numbers *)
(* ================================================================== *)

Module JsNumber.

(** A number that holds an integer, or one of the three values that hold
    none. *)
Inductive Number :=
| Finite (z : Z)
| PlusInfinity
| MinusInfinity
| NaN.

(** The integer nearest to [z] that has at most 53 significant bits, the
    one with the even significand when two are as near: what a number can
    hold of [z]. *)
Definition round53 (z : Z) : Z :=
  let a := Z.abs z in
  if a <? 9007199254740992 then z
  else
    let e := Z.log2 a - 52 in
    let q := Z.shiftr a e in
    let r := a - Z.shiftl q e in
    let half := Z.shiftl 1 (e - 1) in
    let q' :=
      if r <? half then q
      else if half <? r then q + 1
      else if Z.even q then q else q + 1 in
    Z.sgn z * Z.shiftl q' e.

(** The number an exact integer result becomes: rounded, and infinite from
    [2 ^ 1024] on. *)
Definition to_number (z : Z) : Number :=
  let r := round53 z in
  if 2 ^ 1024 <=? r then PlusInfinity
  else if r <=? - 2 ^ 1024 then MinusInfinity
  else Finite r.

(** [a * b] for two numbers that hold the integers [a] and [b]. *)
Definition times (a b : Z) : Number := to_number (a * b).

(** [x - y] *)
Definition minus (x y : Number) : Number :=
  match x, y with
  | NaN, _ | _, NaN => NaN
  | Finite a, Finite b => to_number (a - b)
  | PlusInfinity, PlusInfinity => NaN
  | MinusInfinity, MinusInfinity => NaN
  | PlusInfinity, _ => PlusInfinity
  | MinusInfinity, _ => MinusInfinity
  | Finite _, PlusInfinity => MinusInfinity
  | Finite _, MinusInfinity => PlusInfinity
  end.

(** What [sort] reads of the value of a comparator: its sign, [NaN]
    counting as zero. *)
Definition sign_of (v : Number) : Z :=
  match v with
  | Finite z => z
  | PlusInfinity => 1
  | MinusInfinity => -1
  | NaN => 0
  end.

End JsNumber.

(* ================================================================== *)
(** * The curated photo source (browser script) *)
(* ================================================================== *)

Module Pexels.

(** The [src] object of a photo of the Pexels API. *)
Record PhotoSrc := {
  original : string;
  large2x : string;
  large : string;
  medium : string
}.

(** A photo of the Pexels API.  [id] is the API's identifier of the photo:
    two entries of one response are the same photo exactly when they are
    equal.  [width] and [height] are the integers their numbers hold. *)
Record Photo := {
  id : Z;
  width : Z;
  height : Z;
  url : string;
  photographer : string;
  photographer_url : string;
  alt : string;
  src : PhotoSrc
}.

(** The body of a response, [data]: [photos] is [None] when [data.photos]
    is not an array. *)
Record Data := { photos : option (list Photo) }.

(** What [fetch] resolves to: [text] and [json] are what [response.text()]
    and [response.json()] resolve to.  A body that is no JSON text, or that
    is [null] or holds a [null] entry, on which the code throws, is no value
    of this type. *)
Record Response := {
  ok : bool;
  status : Z;
  text : string;
  json : Data
}.

(** The request [searchPhotos] sends. *)
Record Request := {
  endpoint : string;
  param_query : string;
  param_per_page : string;
  Authorization : string
}.

(** The errors [searchPhotos] throws, and a rejection of [fetch] itself. *)
Inductive Error :=
| MissingApiKey
| RequestFailed (status : Z) (text : string)
| FetchRejected.

Inductive Result (A : Type) :=
| Returned (a : A)
| Thrown (e : Error).
Arguments Thrown {A} e.

(** The area of a photo, exactly. *)
Definition area (p : Photo) : Z := width p * height p.

(** The area is one a number holds exactly. *)
Definition exact_area (p : Photo) : Prop := 0 <= area p < 9007199254740992.

(** [(p) => p.width >= 2000 && p.height >= 1200] *)
Definition isLarge (p : Photo) : bool := (2000 <=? width p) && (1200 <=? height p).

(** [(a, b) => b.width * b.height - a.width * a.height], in the arithmetic
    of numbers: each product is rounded, and so is the difference. *)
Definition byAreaDesc (a b : Photo) : Z :=
  JsNumber.sign_of
    (JsNumber.minus (JsNumber.times (width b) (height b))
                    (JsNumber.times (width a) (height a))).

Definition enhanceQueryForCinematic (baseQuery : string) : string := baseQuery.

(** The selection that [searchPhotos] applies to [data.photos]. *)
Definition select (photos : list Photo) : list Photo :=
  let filtered := JsArray.sort byAreaDesc (filter isLarge photos) in
  if 5 <=? Z.of_nat (List.length filtered) then JsArray.slice0 filtered 5
  else
    let fallback :=
      JsArray.slice0
        (JsArray.sort byAreaDesc (filter (fun _ => true) photos))
        (Z.max 5 (Z.of_nat (List.length filtered))) in
    JsArray.slice0 (JsArray.concat filtered fallback) 5.

Section SearchPhotos.
(** [window.PEXELS_API_KEY], and [fetch]: [None] is a rejected promise. *)
Variable API_KEY : string.
Variable fetch : Request -> option Response.

(** The URL with its two search parameters, and the one header. *)
Definition search_request (query : string) : Request :=
  let cinematicQuery := enhanceQueryForCinematic query in
  {| endpoint := "https://api.pexels.com/v1/search";
     param_query := cinematicQuery;
     param_per_page := "50";
     Authorization := API_KEY |}.

Definition searchPhotos (query : string) : Result (list Photo) :=
  if String.eqb API_KEY "" then Thrown MissingApiKey
  else
    match fetch (search_request query) with
    | None => Thrown FetchRejected
    | Some response =>
        if negb (ok response)
        then Thrown (RequestFailed (status response) (text response))
        else
          let data := json response in
          let photos := match photos data with Some ps => ps | None => [] end in
          Returned (select photos)
    end.
End SearchPhotos.

Definition PhotoSrc_eq_dec (a b : PhotoSrc) : {a = b} + {a <> b}.
Proof. decide equality; apply string_dec. Defined.

Definition Photo_eq_dec (a b : Photo) : {a = b} + {a <> b}.
Proof.
  decide equality; try apply string_dec; try apply Z.eq_dec; apply PhotoSrc_eq_dec.
Defined.

End Pexels.

(* ================================================================== *)
(** * Sets *)
(* ================================================================== *)

Module JsSet.
Section JsSet.
Context {A : Type}.
Variable eqb : A -> A -> bool.

(** A [Set], as the list of its elements in insertion order. *)
Definition mem (x : A) (s : list A) : bool := existsb (eqb x) s.

(** [s.add(x)]: an element already there keeps its place. *)
Definition add (s : list A) (x : A) : list A :=
  if mem x s then s else s ++ [x].
End JsSet.
End JsSet.

(* ================================================================== *)
(** * The scrape source, the encyclopedia source and the endpoint *)
(* ================================================================== *)

Module Server.
Import JsString Json.
Local Open Scope string_scope.

(** ** Documents and JSON bodies *)

(** An [a] element: its [href] attribute and its text. *)
Record Anchor := { href : option string; text : string }.

(** An [img] element: its [src], [data-src] and [alt] attributes. *)
Record Img := { img_src : option string; img_data_src : option string; img_alt : option string }.

(** A loaded document: what [$('a')] and [$('img')] select. *)
Record Document := { anchors : list Anchor; imgs : list Img }.

(** The image descriptor [{ src, alt }]. *)
Record Descriptor := { src : string; alt : string }.

Definition Descriptor_eqb (a b : Descriptor) : bool :=
  String.eqb (src a) (src b) && String.eqb (alt a) (alt b).

(** [JSON.stringify({ src, alt })] *)
Definition JSON_stringify (d : Descriptor) : string :=
  "{" ++ quote "src" ++ ":" ++ quote (src d)
      ++ "," ++ quote "alt" ++ ":" ++ quote (alt d) ++ "}".

(** [JSON.parse(t)] for the texts that [JSON.stringify] makes of
    descriptors; [None] is a [SyntaxError].  Other JSON texts do not reach
    it and are not modelled. *)
Definition JSON_parse (t : string) : option Descriptor :=
  and_then (strip_prefix ("{" ++ quote "src" ++ ":" ++ String dquote "") t) (fun t1 =>
  and_then (read_string t1) (fun st2 =>
  and_then (strip_prefix ("," ++ quote "alt" ++ ":" ++ String dquote "") (snd st2)) (fun t3 =>
  and_then (read_string t3) (fun at4 =>
  if String.eqb (snd at4) "}"
  then Some {| src := fst st2; alt := fst at4 |}
  else None)))).

(** [texts.map((s) => JSON.parse(s))] *)
Fixpoint parse_all (texts : list string) : option (list Descriptor) :=
  match texts with
  | [] => Some []
  | t :: texts' =>
      match JSON_parse t, parse_all texts' with
      | Some d, Some ds => Some (d :: ds)
      | _, _ => None
      end
  end.

(** The body of the answer to [list=search]: a field is [None] where the
    property is missing. *)
Record SearchHit := { title : string }.
Record SearchQuery := { search : option (list SearchHit) }.
Record SearchBody := { search_query : option SearchQuery }.

(** The body of the answer to [generator=images]; [pages] lists the values
    of the [pages] object in the order of [Object.values]. *)
Record ImageInfo := { url : option string }.
Record Page := { imageinfo : option (list ImageInfo) }.
Record ImagesQuery := { pages : option (list Page) }.
Record ImagesBody := { images_query : option ImagesQuery }.

(** ** The network *)

(** The three shapes of [axios.get] in the program.
    - [GetPage url referer]: a page of TripAdvisor, with the browser
      headers, the [Referer] when given, and a timeout of 15000 ms;
    - [GetWikiSearch q]: [action=query&list=search&srsearch=q&srlimit=1],
      timeout 10000 ms;
    - [GetWikiImages t]:
      [action=query&titles=t&generator=images&gimlimit=50&prop=imageinfo&iiprop=url|mime],
      timeout 10000 ms. *)
Inductive Request :=
| GetPage (url : string) (referer : option string)
| GetWikiSearch (srsearch : string)
| GetWikiImages (titles : string).

(** [res.data] of each: a page as [cheerio.load] reads it, a JSON body
    ([None] when [data] is empty). *)
Definition resp_type (r : Request) : Type :=
  match r with
  | GetPage _ _ => Document
  | GetWikiSearch _ => option SearchBody
  | GetWikiImages _ => option ImagesBody
  end.

(** The error [axios] throws on a status outside 2xx, a timeout or a
    network failure; [response_status] is [err.response.status], absent when
    no response came. *)
Record AxiosError := { response_status : option Z }.

(** The network answers a request knowing the requests made before it. *)
Definition Network := list Request -> forall r : Request, AxiosError + resp_type r.

(** What can be thrown: the error of [axios], or the [SyntaxError] of
    [JSON.parse]. *)
Inductive Error :=
| AxiosFailure (e : AxiosError)
| SyntaxError.

(** [err.response && err.response.status] *)
Definition err_response_status (err : Error) : option Z :=
  match err with
  | AxiosFailure e => response_status e
  | SyntaxError => None
  end.

Inductive LogLine :=
| LogTripAdvisorError (status : option Z)
| LogUnhandled (err : Error).

Record State := { requests : list Request; console : list LogLine }.

Definition initial : State := {| requests := []; console := [] |}.

Inductive Outcome (A : Type) :=
| Ok (a : A)
| Throw (e : Error).
Arguments Throw {A} e.

(** An [async] computation: it reads the network, performs requests and
    writes to the console, and returns or throws. *)
Definition M (A : Type) : Type := Network -> State -> Outcome A * State.

Definition ret {A} (a : A) : M A := fun _ st => (Ok a, st).

Definition bind {A B} (m : M A) (k : A -> M B) : M B :=
  fun net st =>
    match m net st with
    | (Ok a, st') => k a net st'
    | (Throw e, st') => (Throw e, st')
    end.

(** [try { m } catch (err) { h(err) }] *)
Definition try_catch {A} (m : M A) (h : Error -> M A) : M A :=
  fun net st =>
    match m net st with
    | (Ok a, st') => (Ok a, st')
    | (Throw e, st') => h e net st'
    end.

(** [await axios.get(...)] *)
Definition axios_get (r : Request) : M (resp_type r) :=
  fun net st =>
    let st' := {| requests := requests st ++ [r]; console := console st |} in
    match net (requests st) r with
    | inl e => (Throw (AxiosFailure e), st')
    | inr d => (Ok d, st')
    end.

(** A value, or the [SyntaxError] thrown in its place. *)
Definition or_throw {A} (x : option A) : M A :=
  fun _ st =>
    match x with
    | Some a => (Ok a, st)
    | None => (Throw SyntaxError, st)
    end.

Definition console_error (l : LogLine) : M unit :=
  fun _ st => (Ok tt, {| requests := requests st; console := console st ++ [l] |}).

Notation "x <- m ;; k" := (bind m (fun x => k))
  (at level 61, m at next level, right associativity).
Notation "m ;;; k" := (bind m (fun _ => k))
  (at level 61, right associativity).

(** ** The scrape source *)

Definition buildTripAdvisorSearchUrl (query : string) : string :=
  "https://www.tripadvisor.com/Search?q=" ++ encodeURIComponent query.

(** [/Attraction/.test(href) || /Attraction_Review/.test(href) ||
    /-Activities-/.test(href)] *)
Definition path_pattern (href : string) : bool :=
  includes href "Attraction" || includes href "Attraction_Review"
  || includes href "-Activities-".

(** The body of [$('a').each(...)]: one anchor against the set of
    candidate links. *)
Definition each_anchor (query : string) (candidateLinks : list string) (a : Anchor)
  : list string :=
  let href := or_else (href a) "" in
  let text := toLowerCase (text a) in
  if falsy href then candidateLinks
  else
    let candidateLinks :=
      if path_pattern href
      then JsSet.add String.eqb candidateLinks href
      else candidateLinks in
    if includes text (toLowerCase query)
    then JsSet.add String.eqb candidateLinks href
    else candidateLinks.

(** [placeHref] after the loop over the anchors of the search page. *)
Definition placeHref (query : string) (doc : Document) : option string :=
  let candidateLinks := fold_left (each_anchor query) (anchors doc) [] in
  match candidateLinks with
  | [] => None
  | first :: _ => Some first
  end.

(** [accept]: [/media-cdn\.tripadvisor\.com|dynamic-media-cdn\.tripadvisor\.com/.test(src)] *)
Definition accept (src : string) : bool :=
  includes src "media-cdn.tripadvisor.com"
  || includes src "dynamic-media-cdn.tripadvisor.com".

(** [src.replace(/photo-s\//, 'photo-l/').replace(/\/-w\d+-h\d+\//, '/')] *)
Definition normalize (src : string) : string :=
  replace_size_directive (replace_first "photo-s/" "photo-l/" src).

(** The body of [$2('img').each(...)]: one image against the set
    [images] of JSON texts. *)
Definition each_img (images : list string) (img : Img) : list string :=
  let src := or_else (img_src img) (or_else (img_data_src img) "") in
  let alt := or_else (img_alt img) "" in
  if falsy src then images
  else if includes src "data:image" then images
  else if negb (accept src) then images
  else
    let src := normalize src in
    JsSet.add String.eqb images (JSON_stringify {| src := src; alt := alt |}).

(** The second half of [fetchTripAdvisorImages]: from the detail page to
    the list it returns, [Array.from(images).slice(0, max).map(JSON.parse)]. *)
Definition extract_images (doc : Document) (max : Z) : option (list Descriptor) :=
  let images := fold_left each_img (imgs doc) [] in
  parse_all (JsArray.slice0 images max).

Definition fetchTripAdvisorImages (query : string) (max : Z) : M (list Descriptor) :=
  let url := buildTripAdvisorSearchUrl query in
  res <- axios_get (GetPage url None) ;;
  match placeHref query res with
  | None => ret []
  | Some placeHref =>
      let placeUrl :=
        if startsWith placeHref "http" then placeHref
        else "https://www.tripadvisor.com" ++ placeHref in
      res2 <- axios_get (GetPage placeUrl (Some url)) ;;
      or_throw (extract_images res2 max)
  end.

(** ** The encyclopedia source *)

(** [search.data && search.data.query && search.data.query.search &&
    search.data.query.search[0]] *)
Definition top_hit (data : option SearchBody) : option SearchHit :=
  match data with
  | Some body =>
      match search_query body with
      | Some q =>
          match search q with
          | Some (hit :: _) => Some hit
          | _ => None
          end
      | None => None
      end
  | None => None
  end.

(** [(imgs.data && imgs.data.query && imgs.data.query.pages) || {}], as the
    list of its values. *)
Definition pages_of (data : option ImagesBody) : list Page :=
  match data with
  | Some body =>
      match images_query body with
      | Some q => match pages q with Some ps => ps | None => [] end
      | None => []
      end
  | None => []
  end.

(** [(p.imageinfo && p.imageinfo[0] && p.imageinfo[0].url) || null] *)
Definition page_url (p : Page) : option string :=
  match imageinfo p with
  | Some (info :: _) =>
      match url info with
      | Some u => if falsy u then None else Some u
      | None => None
      end
  | _ => None
  end.

(** [/\.(jpg|jpeg|png)$/i.test(u)] *)
Definition has_image_extension (u : string) : bool :=
  let l := toLowerCase u in
  endsWith l ".jpg" || endsWith l ".jpeg" || endsWith l ".png".

(** [.map(page_url).filter(Boolean).filter(has_image_extension)] *)
Fixpoint image_urls (ps : list Page) : list string :=
  match ps with
  | [] => []
  | p :: ps' =>
      match page_url p with
      | Some u => if has_image_extension u then u :: image_urls ps' else image_urls ps'
      | None => image_urls ps'
      end
  end.

Definition fetchWikipediaImages (query : string) (max : Z) : M (list Descriptor) :=
  search <- axios_get (GetWikiSearch query) ;;
  match top_hit search with
  | None => ret []
  | Some top =>
      imgs <- axios_get (GetWikiImages (title top)) ;;
      let urls := image_urls (pages_of imgs) in
      ret (map (fun u => {| src := u; alt := title top ++ " (Wikipedia)" |})
               (JsArray.slice0 urls max))
  end.

(** ** The endpoint *)

(** [req]: [query] and [body] may be absent, and so may their [q]. *)
Record Params := { q : option string }.
Record HttpRequest := { query : option Params; body : option Params }.

Inductive Body :=
| JsonError (error : string)
| JsonImages (images : list Descriptor) (fallback : option string).

(** What [res.status(...).json(...)] sends; [res.json] alone sends 200. *)
Record HttpResponse := { status : Z; json : Body }.

Definition param_q (p : option Params) : option string :=
  match p with Some p => q p | None => None end.

(** [let imgs = []; try { imgs = await fetchTripAdvisorImages(query, 10); }
    catch (err) { console.error('TripAdvisor error:', ...); }]: the value of
    [imgs] afterwards. *)
Definition scrape_leg (query : string) : M (list Descriptor) :=
  try_catch (fetchTripAdvisorImages query 10)
    (fun err => console_error (LogTripAdvisorError (err_response_status err)) ;;;
                ret []).

(** The work both variants of the endpoint do once the query is known;
    [unhandled] is what the outer [catch] does. *)
Definition respond (query : string) (unhandled : Error -> M HttpResponse)
  : M HttpResponse :=
  if falsy query then ret {| status := 400; json := JsonError "Missing q" |}
  else
    try_catch
      (imgs <- scrape_leg query ;;
       match imgs with
       | [] =>
           wiki <- fetchWikipediaImages query 10 ;;
           ret {| status := 200; json := JsonImages wiki (Some "wikipedia") |}
       | _ => ret {| status := 200; json := JsonImages imgs None |}
       end)
      unhandled.

(** [(req.query && req.query.q) || (req.body && req.body.q) || ''] *)
Definition handler_q (req : HttpRequest) : string :=
  or_else (param_q (query req)) (or_else (param_q (body req)) "").

(** [String(q || '').trim()] *)
Definition handler_query (req : HttpRequest) : string :=
  trim (or_else (Some (handler_q req)) "").

(** [module.exports] of [api/tripadvisor.js]. *)
Definition handler (req : HttpRequest) : M HttpResponse :=
  respond (handler_query req)
    (fun err => ret {| status := 500; json := JsonError "Failed to fetch images" |}).

(** [String(req.query.q || '').trim()] *)
Definition route_query (req_query : Params) : string :=
  trim (or_else (q req_query) "").

(** The route [app.get('/api/tripadvisor', ...)] of the local server;
    there [req.query] is always an object. *)
Definition route (req_query : Params) : M HttpResponse :=
  respond (route_query req_query)
    (fun err => console_error (LogUnhandled err) ;;;
                ret {| status := 500; json := JsonError "Failed to fetch TripAdvisor images" |}).

(** ** Reading a run *)

(** The [fallback] property of the body sent, when it has one. *)
Definition fallback_of (r : HttpResponse) : option string :=
  match json r with
  | JsonImages _ f => f
  | JsonError _ => None
  end.

Definition is_wiki (r : Request) : bool :=
  match r with
  | GetPage _ _ => false
  | GetWikiSearch _ | GetWikiImages _ => true
  end.

(** The requests made since the state [st0]. *)
Definition requests_since (st0 st : State) : list Request :=
  skipn (List.length (requests st0)) (requests st).

(** The state once the failure [e] of the scrape has been written to the
    console. *)
Definition logged (st : State) (e : Error) : State :=
  {| requests := requests st;
     console := console st ++ [LogTripAdvisorError (err_response_status e)] |}.

(** The descriptor one image adds to the set, when it adds one. *)
Definition descriptor_of (img : Img) : option Descriptor :=
  let src := or_else (img_src img) (or_else (img_data_src img) "") in
  let alt := or_else (img_alt img) "" in
  if falsy src || includes src "data:image" || negb (accept src) then None
  else Some {| src := normalize src; alt := alt |}.

(** The descriptors the images of a page yield, in document order,
    repeats included. *)
Definition emitted (doc : Document) : list Descriptor :=
  flat_map (fun img => match descriptor_of img with Some d => [d] | None => [] end)
           (imgs doc).

(** Every character of [s] is white space. *)
Fixpoint blank (s : string) : bool :=
  match s with
  | EmptyString => true
  | String c s' => is_space c && blank s'
  end.

(** ** Terms of the specification *)

Fixpoint take_until (stop : ascii -> bool) (s : string) : string :=
  match s with
  | EmptyString => EmptyString
  | String c s' => if stop c then EmptyString else String c (take_until stop s')
  end.

Fixpoint after_scheme (s : string) : option string :=
  match strip_prefix "://" s with
  | Some rest => Some rest
  | None =>
      match s with
      | EmptyString => None
      | String _ s' => after_scheme s'
      end
  end.

(** The host of an absolute URL without user information: what stands
    between [://] and the next of [/ ? # :].  This is the "src host" the
    specification speaks of; the program never computes it. *)
Definition url_host (u : string) : string :=
  match after_scheme u with
  | Some rest =>
      take_until (fun c => includes "/?#:" (String c EmptyString)) rest
  | None => EmptyString
  end.

(** The host is one of the two CDN domains. *)
Definition cdn_host (u : string) : bool :=
  String.eqb (url_host u) "media-cdn.tripadvisor.com"
  || String.eqb (url_host u) "dynamic-media-cdn.tripadvisor.com".

(** A [data:] URI. *)
Definition data_uri (u : string) : bool := startsWith u "data:".

End Server.

(* ================================================================== *)
(** * Sample data *)
(* ================================================================== *)

Module Samples.
Import Pexels.
Local Open Scope string_scope.

Definition no_src : PhotoSrc :=
  {| original := ""; large2x := ""; large := ""; medium := "" |}.

(** A photo with only what the selection reads. *)
Definition photo (i w h : Z) : Photo :=
  {| id := i; width := w; height := h; url := ""; photographer := "";
     photographer_url := ""; alt := ""; src := no_src |}.

Definition respond_with (ps : list Photo) : Response :=
  {| ok := true; status := 200; text := ""; json := {| photos := Some ps |} |}.

(** Six photos, all of them large; 2 and 4 have the same area. *)
Definition six_large : list Photo :=
  [photo 1 2000 1200; photo 2 4000 3000; photo 3 6000 4000;
   photo 4 3000 4000; photo 5 2500 1500; photo 6 5000 3000].

(** Five large photos; the areas of the first two are above [2 ^ 53], and
    that of the second is the larger by one. *)
Definition huge_pair : list Photo :=
  [photo 1 94906266 94906268; photo 2 94906267 94906267;
   photo 3 6000 4000; photo 4 3000 4000; photo 5 2500 1500].

(** Three wide photos that are not large, and a smaller one that is. *)
Definition one_large_of_four : list Photo :=
  [photo 1 10000 1000; photo 2 9000 1000; photo 3 8000 1000; photo 4 2000 1200].

(** ** Pages and networks *)

Import Server.

Definition img (s a : string) : Img :=
  {| img_src := Some s; img_data_src := None; img_alt := Some a |}.

(** A detail page: a thumbnail with a size directive, the same picture a
    second time, a lazy image, an inline image and a foreign one. *)
Definition detail_page : Document :=
  {| anchors := [];
     imgs :=
       [img "https://media-cdn.tripadvisor.com/media/photo-s/01/-w100-h80/a.jpg" "Tower";
        img "https://media-cdn.tripadvisor.com/media/photo-l/01/a.jpg" "Tower";
        {| img_src := None;
           img_data_src := Some "https://dynamic-media-cdn.tripadvisor.com/media/b.jpg";
           img_alt := None |};
        img "data:image/png;base64,AAAA" "inline";
        img "https://example.org/c.jpg" "elsewhere"] |}.

(** A page whose images are not from the CDN but carry its name. *)
Definition foreign_page : Document :=
  {| anchors := [];
     imgs :=
       [img "https://evil.example/media-cdn.tripadvisor.com/a.jpg" "";
        img "data:text/html,media-cdn.tripadvisor.com" ""] |}.

(** A search page with links, none of them to a place. *)
Definition search_page_without_place : Document :=
  {| anchors :=
       [{| href := Some "/Hotels"; text := "Hotels" |};
        {| href := None; text := "Nonexistent Place XYZ" |};
        {| href := Some "/Forum"; text := "Travel forum" |}];
     imgs := [] |}.

(** A search page with a link to a place. *)
Definition search_page_with_place : Document :=
  {| anchors :=
       [{| href := Some "/Hotels"; text := "Hotels" |};
        {| href := Some "/Attraction_Review-g187147-d188151"; text := "Eiffel Tower" |}];
     imgs := [] |}.

Definition no_hit : option SearchBody :=
  Some {| search_query := Some {| search := Some [] |} |}.

Definition one_hit : option SearchBody :=
  Some {| search_query := Some {| search := Some [{| title := "Eiffel Tower" |}] |} |}.

Definition page_of (u : string) : Page :=
  {| imageinfo := Some [{| url := Some u |}] |}.

Definition tower_images : option ImagesBody :=
  Some {| images_query := Some {| pages := Some
    [page_of "https://upload.wikimedia.org/a/Tour_Eiffel.JPG";
     page_of "https://upload.wikimedia.org/a/Commons-logo.svg";
     {| imageinfo := None |};
     page_of "https://upload.wikimedia.org/a/Paris.png"] |} |}.

(** Every request fails: no response at all. *)
Definition dead_network : Network :=
  fun _ r => inl {| response_status := None |}.

(** TripAdvisor shows no place and Wikipedia finds nothing. *)
Definition empty_network : Network :=
  fun _ r =>
    match r with
    | GetPage _ _ => inr search_page_without_place
    | GetWikiSearch _ => inr no_hit
    | GetWikiImages _ => inr None
    end.

(** TripAdvisor shows no place and Wikipedia does not answer in time. *)
Definition wiki_down_network : Network :=
  fun _ r =>
    match r with
    | GetPage _ _ => inr search_page_without_place
    | GetWikiSearch _ => inl {| response_status := None |}
    | GetWikiImages _ => inl {| response_status := None |}
    end.

(** TripAdvisor refuses (status 403); Wikipedia answers. *)
Definition wiki_only_network : Network :=
  fun _ r =>
    match r with
    | GetPage _ _ => inl {| response_status := Some 403 |}
    | GetWikiSearch _ => inr one_hit
    | GetWikiImages _ => inr tower_images
    end.

(** TripAdvisor answers: the search page first, then the detail page. *)
Definition scrape_network : Network :=
  fun history r =>
    match r with
    | GetPage _ None => inr search_page_with_place
    | GetPage _ (Some _) => inr detail_page
    | GetWikiSearch _ => inr one_hit
    | GetWikiImages _ => inr tower_images
    end.



Definition ask (s : string) : HttpRequest :=
  {| query := Some {| q := Some s |}; body := None |}.

End Samples.

(* ================================================================== *)
(** * Further terms *)
(* ================================================================== *)

Module Terms.
Import JsString Server.
Local Open Scope string_scope.

(** An anchor the loop of the place-link resolver takes: it has an [href]
    and one of the two heuristics holds of it. *)
Definition anchor_matches (query : string) (a : Anchor) : bool :=
  negb (falsy (or_else (href a) ""))
  && (path_pattern (or_else (href a) "")
      || includes (toLowerCase (text a)) (toLowerCase query)).

(** [placeHref.startsWith('http') ? placeHref :
    `https://www.tripadvisor.com${placeHref}`] *)
Definition placeUrl (placeHref : string) : string :=
  if startsWith placeHref "http" then placeHref
  else "https://www.tripadvisor.com" ++ placeHref.

(** A character that stands for itself in a URL component, or the percent
    sign of an escape. *)
Definition uri_safe (c : ascii) : bool :=
  uri_unreserved c || Ascii.eqb c "%".

(** The URL of the first image information of a page, as the response has
    it. *)
Definition first_url (p : Page) : option string :=
  match imageinfo p with
  | Some (info :: _) => url info
  | _ => None
  end.

End Terms.

(* ================================================================== *)
(** * The page of the browser script *)
(* ================================================================== *)

Module Client.
Import JsString.
Local Open Scope string_scope.

(** ** The elements of the page *)

(** The three texts the script writes into the status line: none,
    [Searching photos...], and
    [Showing <count> <noun> for "<place>".] *)
Inductive Message :=
| NoMessage
| Searching
| Showing (count : nat) (noun : string) (place : string).

(** The status element: its [textContent] and its [dataset.tone]. *)
Record StatusElement := { textContent : Message; tone : string }.

(** What [createPhotoCard] builds: the link around the image, the image,
    the byline and the link that opens the original. *)
Record PhotoCard := {
  link_href : string;
  img_src : string;
  img_alt : string;
  byline_href : string;
  byline_text : string;
  open_href : string
}.

(** The card of an image of the endpoint. *)
Record TaCard := { ta_href : string; ta_src : string; ta_alt : string }.

(** The two fixed texts of the [div] of class [empty]. *)
Inductive EmptyText :=
| NoResults
| NoTripAdvisorImages.

(** The children of one of the two result containers: a placeholder, a
    card, the [div] of class [empty] with one of its fixed texts, or
    [Markup html]: the nodes, none, one or several, that the browser makes
    of the text [html] when the script assigns it to [innerHTML]. *)
Inductive Node :=
| Skeleton
| Photo (card : PhotoCard)
| TripAdvisor (card : TaCard)
| Empty (text : EmptyText)
| Markup (html : string).

(** [elements]: the status line and the TripAdvisor container may be
    missing from the page, and the script asks before it uses them; the
    container of the results it uses without asking. *)
Record Elements := {
  status : option StatusElement;
  results : list Node;
  taResults : option (list Node)
}.

(** [setStatus(message, tone = 'info')] *)
Definition setStatus (message : Message) (tone : string) (els : Elements) : Elements :=
  match status els with
  | None => els
  | Some _ =>
      {| status := Some {| textContent := message; tone := tone |};
         results := results els;
         taResults := taResults els |}
  end.

(** [clearResults()] *)
Definition clearResults (els : Elements) : Elements :=
  {| status := status els;
     results := [];
     taResults := match taResults els with Some _ => Some [] | None => None end |}.

(** [renderSkeleton(count)] *)
Definition renderSkeleton (count : Z) (els : Elements) : Elements :=
  let els := clearResults els in
  let fragment := repeat Skeleton (Z.to_nat count) in
  {| status := status els;
     results := (results els ++ fragment)%list;
     taResults := taResults els |}.

(** [elements.results.innerHTML = ...] *)
Definition set_results (nodes : list Node) (els : Elements) : Elements :=
  {| status := status els; results := nodes; taResults := taResults els |}.

(** [elements.results.appendChild(fragment)] *)
Definition append_results (fragment : list Node) (els : Elements) : Elements :=
  {| status := status els;
     results := results els ++ fragment;
     taResults := taResults els |}.

(** [`<div class="empty">${message}</div>`]: the message goes into the
    markup as it is, nothing in it is escaped. *)
Definition error_markup (message : string) : string :=
  "<div class=" ++ String Json.dquote "empty" ++ String Json.dquote ">"
  ++ message ++ "</div>".

(** [createPhotoCard(photo)] *)
Definition createPhotoCard (photo : Pexels.Photo) : PhotoCard :=
  let src := Pexels.src photo in
  {| link_href := Pexels.url photo;
     img_src :=
       or_else (Some (Pexels.large2x src))
         (or_else (Some (Pexels.large src))
            (or_else (Some (Pexels.medium src)) (Pexels.original src)));
     img_alt :=
       "Photo of " ++ or_else (Some (Pexels.alt photo)) "place"
       ++ " by " ++ Pexels.photographer photo;
     byline_href := Pexels.photographer_url photo;
     byline_text := "By " ++ Pexels.photographer photo;
     open_href := Pexels.original src |}.

(** The card [handleSearch] builds for an image of the endpoint. *)
Definition createTaCard (img : Server.Descriptor) : TaCard :=
  {| ta_href := Server.src img;
     ta_src := Server.src img;
     ta_alt := or_else (Some (Server.alt img)) "TripAdvisor image" |}.

(** What [fetch] of [/api/tripadvisor] resolves to: [images] is [None]
    when [data.images] is not an array. *)
Record EndpointResponse := {
  ok : bool;
  images : option (list Server.Descriptor)
}.

Section Script.
(** [window.PEXELS_API_KEY], the [fetch] of the Pexels API, the [fetch] of
    the endpoint by the value of [q] ([None] is a rejected promise), and
    the message of the error with which the browser rejects a [fetch]. *)
Variable API_KEY : string.
Variable fetch : Pexels.Request -> option Pexels.Response.
Variable endpoint : string -> option EndpointResponse.
Variable rejection : string.

(** [err.message] of what [searchPhotos] throws. *)
Definition message_of (err : Pexels.Error) : string :=
  match err with
  | Pexels.MissingApiKey => "Missing Pexels API key. Define window.PEXELS_API_KEY."
  | Pexels.RequestFailed status text =>
      "Request failed (" ++ NilZero.string_of_int (Z.to_int status) ++ "): "
      ++ or_else (Some text) "Unknown error"
  | Pexels.FetchRejected => rejection
  end.

(** [searchTripAdvisorImages(query)]; [None] when it throws. *)
Definition searchTripAdvisorImages (query : string) : option (list Server.Descriptor) :=
  match endpoint query with
  | None => None
  | Some res =>
      if negb (ok res) then None
      else Some (match images res with Some l => l | None => [] end)
  end.

(** The TripAdvisor part of [handleSearch], once both searches are done. *)
Definition show_ta (taPhotos : list Server.Descriptor) (els : Elements) : Elements :=
  match taResults els with
  | None => els
  | Some children =>
      {| status := status els;
         results := results els;
         taResults :=
           match taPhotos with
           | [] => Some [Empty NoTripAdvisorImages]
           | _ =>
               Some (children
                     ++ map (fun img => TripAdvisor (createTaCard img))
                            (JsArray.slice0 taPhotos 10))%list
           end |}
  end.

(** [handleSearch(query)] *)
Definition handleSearch (query : string) (els : Elements) : Elements :=
  let trimmed := trim (or_else (Some query) "") in
  if falsy trimmed then els
  else
    let els := setStatus Searching "info" els in
    let els := renderSkeleton 5 els in
    match Pexels.searchPhotos API_KEY fetch trimmed with
    | Pexels.Thrown err =>
        let els := clearResults els in
        let els :=
          set_results
            [Markup (error_markup
                       (or_else (Some (message_of err)) "Something went wrong."))]
            els in
        setStatus NoMessage "info" els
    | Pexels.Returned photos =>
        let taPhotos :=
          match searchTripAdvisorImages trimmed with
          | Some l => l
          | None => []
          end in
        let els := clearResults els in
        let els :=
          match photos with
          | [] => setStatus NoMessage "info" (set_results [Empty NoResults] els)
          | _ => els
          end in
        let els := append_results (map (fun p => Photo (createPhotoCard p)) photos) els in
        let els :=
          setStatus
            (Showing (List.length photos)
               ("photo" ++ (if Nat.eqb (List.length photos) 1 then "" else "s"))
               trimmed)
            "info" els in
        show_ta taPhotos els
    end.
End Script.

(** The endpoint as the serverless function serves it over a network: the
    value of [q] becomes [req.query.q], the response is [ok] for a status
    from 200 to 299, and its body carries [images] when it is the body of
    images. *)
Definition served (net : Server.Network) (q : string) : option EndpointResponse :=
  match fst (Server.handler
               {| Server.query := Some {| Server.q := Some q |}; Server.body := None |}
               net Server.initial) with
  | Server.Ok r =>
      Some {| ok := ((200 <=? Server.status r) && (Server.status r <=? 299))%Z;
              images :=
                match Server.json r with
                | Server.JsonImages l _ => Some l
                | Server.JsonError _ => None
                end |}
  | Server.Throw _ => None
  end.

(** ** Sample runs *)

(** A response of the Pexels API that is not [ok]. *)
Definition too_many_requests : Pexels.Response :=
  {| Pexels.ok := false; Pexels.status := 429; Pexels.text := "";
     Pexels.json := {| Pexels.photos := None |} |}.

(** An endpoint that answers with twelve images. *)
Definition twelve_images (q : string) : option EndpointResponse :=
  Some {| ok := true;
          images := Some (repeat {| Server.src := "https://media-cdn.tripadvisor.com/a.jpg";
                                    Server.alt := "" |} 12) |}.

(** A page with all three elements, as it is before a search. *)
Definition blank_page : Elements :=
  {| status := Some {| textContent := NoMessage; tone := "info" |};
     results := [];
     taResults := Some [] |}.

End Client.

(* ================================================================== *)
(** * Facts about arrays *)
(* ================================================================== *)

Section SliceFacts.
Context {A : Type}.

Lemma slice0_nonneg (l : list A) (n : Z) :
  0 <= n -> JsArray.slice0 l n = firstn (Z.to_nat n) l.
Proof.
  intros Hn. unfold JsArray.slice0.
  destruct (Z.ltb_spec n 0); [lia | reflexivity].
Qed.

(** Whatever the bound, a slice from 0 is a prefix of the array. *)
Lemma slice0_prefix (l : list A) (n : Z) :
  exists k, JsArray.slice0 l n = firstn k l.
Proof.
  unfold JsArray.slice0. destruct (n <? 0); eexists; reflexivity.
Qed.

Lemma firstn_incl (k : nat) (l : list A) : incl (firstn k l) l.
Proof.
  intros x Hx. rewrite <- (firstn_skipn k l). apply in_or_app. now left.
Qed.

Lemma slice0_map {B : Type} (f : A -> B) (l : list A) (n : Z) :
  JsArray.slice0 (map f l) n = map f (JsArray.slice0 l n).
Proof.
  unfold JsArray.slice0. rewrite length_map. destruct (n <? 0); apply firstn_map.
Qed.
End SliceFacts.

Section SortFacts.
Context {A : Type}.
Variable cmp : A -> A -> Z.

Lemma insert_perm (x : A) (l : list A) :
  Permutation (JsArray.insert cmp x l) (x :: l).
Proof.
  induction l as [|y l IH]; simpl.
  - apply Permutation_refl.
  - destruct (cmp x y <=? 0).
    + apply Permutation_refl.
    + eapply perm_trans; [apply perm_skip, IH | apply perm_swap].
Qed.

Lemma sort_perm (l : list A) : Permutation (JsArray.sort cmp l) l.
Proof.
  induction l as [|x l IH]; simpl.
  - constructor.
  - eapply perm_trans; [apply insert_perm | now apply perm_skip].
Qed.

Lemma sort_length (l : list A) :
  List.length (JsArray.sort cmp l) = List.length l.
Proof. apply Permutation_length, sort_perm. Qed.

Lemma sort_in (l : list A) (x : A) : In x (JsArray.sort cmp l) <-> In x l.
Proof.
  split; apply Permutation_in; [apply sort_perm | apply Permutation_sym, sort_perm].
Qed.

(** On the elements of which [P] holds the comparator orders by a key,
    largest first. *)
Variable key : A -> Z.
Variable P : A -> Prop.
Hypothesis cmp_key : forall a b, P a -> P b -> cmp a b = key b - key a.

Lemma sort_Forall (l : list A) : Forall P l -> Forall P (JsArray.sort cmp l).
Proof. apply Permutation_Forall, Permutation_sym, sort_perm. Qed.

Lemma insert_sorted (x : A) (l : list A) :
  P x -> Forall P l ->
  StronglySorted (fun a b => key b <= key a) l ->
  StronglySorted (fun a b => key b <= key a) (JsArray.insert cmp x l).
Proof.
  intros Hx HP. induction 1 as [|y l Hl IH Hy]; simpl.
  - repeat constructor.
  - apply Forall_cons_iff in HP. destruct HP as [Py HP].
    rewrite cmp_key by assumption.
    destruct (Z.leb_spec (key y - key x) 0) as [Hle|Hgt].
    + constructor; [now constructor|].
      constructor; [lia|].
      eapply Forall_impl; [|exact Hy]. simpl. intros; lia.
    + constructor; [now apply IH|].
      eapply Permutation_Forall; [apply Permutation_sym, insert_perm|].
      constructor; [lia | exact Hy].
Qed.

Lemma sort_sorted (l : list A) :
  Forall P l ->
  StronglySorted (fun a b => key b <= key a) (JsArray.sort cmp l).
Proof.
  induction l as [|x l IH]; simpl; intros HP; [constructor|].
  apply Forall_cons_iff in HP. destruct HP as [Px HP].
  apply insert_sorted; [assumption | now apply sort_Forall | now apply IH].
Qed.

(** Stability: the elements of one key come out in the order they went in. *)
Lemma insert_stable (k : Z) (x : A) (l : list A) :
  P x -> Forall P l ->
  filter (fun a => key a =? k) (JsArray.insert cmp x l)
  = filter (fun a => key a =? k) (x :: l).
Proof.
  intros Hx. induction l as [|y l IH]; simpl; intros HP; [reflexivity|].
  apply Forall_cons_iff in HP. destruct HP as [Py HP].
  rewrite cmp_key by assumption.
  destruct (Z.leb_spec (key y - key x) 0) as [Hle|Hgt].
  - reflexivity.
  - simpl. rewrite IH by assumption. simpl.
    destruct (Z.eqb_spec (key x) k), (Z.eqb_spec (key y) k); try reflexivity; lia.
Qed.

Lemma sort_stable (k : Z) (l : list A) :
  Forall P l ->
  filter (fun a => key a =? k) (JsArray.sort cmp l)
  = filter (fun a => key a =? k) l.
Proof.
  induction l as [|x l IH]; simpl; intros HP; [reflexivity|].
  apply Forall_cons_iff in HP. destruct HP as [Px HP].
  rewrite insert_stable by (assumption || now apply sort_Forall).
  simpl. now rewrite IH.
Qed.
End SortFacts.

Section ListFacts.
Context {A : Type}.

Lemma StronglySorted_app_inv (R : A -> A -> Prop) (l1 l2 : list A) :
  StronglySorted R (l1 ++ l2) ->
  StronglySorted R l1 /\ Forall (fun a => Forall (R a) l2) l1.
Proof.
  induction l1 as [|x l1 IH]; simpl; intros H.
  - split; constructor.
  - apply StronglySorted_inv in H. destruct H as [H Hx].
    destruct (IH H) as [Hs Hf]. apply Forall_app in Hx. destruct Hx as [Hx1 Hx2].
    split; constructor; assumption.
Qed.

Lemma StronglySorted_snoc (R : A -> A -> Prop) (l : list A) (x : A) :
  StronglySorted R l -> Forall (fun a => R a x) l -> StronglySorted R (l ++ [x]).
Proof.
  induction 1 as [|a l Hl IH Ha]; simpl; intros Hx.
  - repeat constructor.
  - apply Forall_cons_iff in Hx. destruct Hx as [Hax Hx].
    constructor; [now apply IH|].
    apply Forall_app. split; [assumption | now repeat constructor].
Qed.

Lemma StronglySorted_firstn (R : A -> A -> Prop) (k : nat) (l : list A) :
  StronglySorted R l -> StronglySorted R (firstn k l).
Proof.
  intros H. rewrite <- (firstn_skipn k l) in H.
  now apply StronglySorted_app_inv in H.
Qed.

Variable eq_dec : forall a b : A, {a = b} + {a <> b}.

(** More pigeons than holes: when every element of [F] is in [S1] or in
    [S2] and [S2] is shorter than [F], some element of [F] occurs twice
    in [F ++ S1]. *)
Lemma pigeon_twice (F : list A) :
  forall S1 S2 : list A,
    (forall x, In x F -> In x S1 \/ In x S2) ->
    (List.length S2 < List.length F)%nat ->
    exists p, In p F /\ (2 <= count_occ eq_dec (F ++ S1) p)%nat.
Proof.
  induction F as [|x F IH]; intros S1 S2 Hin Hlen; simpl in Hlen; [lia|].
  destruct (in_dec eq_dec x F) as [HxF|HxF].
  - exists x. split; [now left|]. simpl. destruct (eq_dec x x); [|congruence].
    rewrite count_occ_app.
    apply (count_occ_In eq_dec) in HxF. lia.
  - destruct (in_dec eq_dec x S1) as [HxS|HxS].
    + exists x. split; [now left|]. simpl. destruct (eq_dec x x); [|congruence].
      rewrite count_occ_app.
      apply (count_occ_In eq_dec) in HxS. lia.
    + assert (HxS2 : In x S2) by (destruct (Hin x (or_introl eq_refl)); tauto).
      destruct (IH S1 (remove eq_dec x S2)) as [p [Hp Hc]].
      * intros y Hy. destruct (Hin y (or_intror Hy)) as [H1|H2]; [now left|].
        right. apply in_in_remove; [|assumption]. intros ->. contradiction.
      * pose proof (remove_length_lt eq_dec S2 x HxS2). lia.
      * exists p. split; [now right|]. simpl.
        destruct (eq_dec x p); lia.
Qed.

Lemma twice_not_NoDup (l : list A) (p : A) :
  (2 <= count_occ eq_dec l p)%nat -> ~ NoDup l.
Proof.
  intros H Hnd. rewrite (NoDup_count_occ eq_dec) in Hnd.
  specialize (Hnd p). lia.
Qed.
End ListFacts.

(* ================================================================== *)
(** * Facts about strings *)
(* ================================================================== *)

Section OccurrenceFacts.
Context {A : Type}.
Implicit Types p s u v x : list A.

(** An occurrence of [p] in [a ++ c :: b], where [c] is no element of
    [p], lies in [a] or in [b]. *)
Lemma occurrence_split p a' b' a c b :
  a' ++ p ++ b' = a ++ c :: b -> ~ In c p ->
  (exists w, a = a' ++ p ++ w) \/ (exists w, b = w ++ p ++ b').
Proof.
  intros H Hc. apply app_eq_app in H. destruct H as [l [[H1 H2]|[H1 H2]]].
  - destruct l as [|c' l]; simpl in H2.
    + destruct p as [|c' p]; simpl in H2.
      * left. exists []. rewrite H1. simpl. now rewrite !app_nil_r.
      * injection H2 as <- _. exfalso. apply Hc. now left.
    + injection H2 as <- H2. right. now exists l.
  - apply app_eq_app in H2. destruct H2 as [l2 [[H3 H4]|[H3 H4]]].
    + destruct l2 as [|c' l2]; simpl in H4.
      * left. exists []. rewrite H1, H3. now rewrite !app_nil_r.
      * injection H4 as <- _. exfalso. apply Hc. rewrite H3.
        apply in_or_app. right. now left.
    + left. exists l2. now rewrite H1, H3.
Qed.

(** An occurrence of [p ++ [c]] in [u ++ x], where [c] is no element of
    [x], lies in [u]. *)
Lemma occurrence_before p c a' b' u x :
  a' ++ (p ++ [c]) ++ b' = u ++ x -> ~ In c x ->
  exists w, u = a' ++ (p ++ [c]) ++ w.
Proof.
  intros H Hc. rewrite app_assoc in H.
  apply app_eq_app in H. destruct H as [l [[H1 H2]|[H1 H2]]].
  - destruct l as [|c' l0 _] using rev_ind.
    + exists []. rewrite app_nil_r in *. now symmetry.
    + rewrite !app_assoc in H1. apply app_inj_tail in H1.
      destruct H1 as [_ <-]. exfalso. apply Hc. rewrite H2.
      apply in_or_app. left. apply in_or_app. right. now left.
  - exists l. now rewrite H1, <- !app_assoc.
Qed.
End OccurrenceFacts.

Section StringFacts.
Import JsString.
Local Open Scope string_scope.
Implicit Types s p r u v : string.

Lemma append_assoc s u v : (s ++ u) ++ v = s ++ u ++ v.
Proof. induction s; simpl; congruence. Qed.

Lemma chars_app s u : chars (s ++ u) = (chars s ++ chars u)%list.
Proof. induction s; simpl; unfold chars in *; simpl; congruence. Qed.

Lemma chars_inj s u : chars s = chars u -> s = u.
Proof.
  intros H. rewrite <- (string_of_list_ascii_of_string s),
    <- (string_of_list_ascii_of_string u). unfold chars in H. now rewrite H.
Qed.

Lemma chars_of_list (l : list ascii) : chars (string_of_list_ascii l) = l.
Proof. apply list_ascii_of_string_of_list_ascii. Qed.

Lemma strip_prefix_sound p : forall s r, strip_prefix p s = Some r -> s = p ++ r.
Proof.
  induction p as [|a p IH]; simpl; intros s r H.
  - congruence.
  - destruct s as [|b s]; [discriminate|].
    destruct (Ascii.eqb_spec a b); [|discriminate].
    subst. f_equal. now apply IH.
Qed.

Lemma strip_prefix_complete p r : strip_prefix p (p ++ r) = Some r.
Proof.
  induction p as [|a p IH]; simpl; [reflexivity|].
  now rewrite Ascii.eqb_refl.
Qed.

Lemma includes_unfold s p :
  includes s p =
    startsWith s p
    || match s with EmptyString => false | String _ s' => includes s' p end.
Proof. destruct s; reflexivity. Qed.

(** [includes] decides occurrence. *)
Lemma includes_occurs s p :
  includes s p = true <-> occurs (chars p) (chars s).
Proof.
  split.
  - induction s as [|c s IH]; rewrite includes_unfold; intros H;
      apply orb_true_iff in H; destruct H as [H|H]; try discriminate.
    + unfold startsWith in H. destruct (strip_prefix p "") eqn:E; [|discriminate].
      apply strip_prefix_sound in E. exists [], (chars s). simpl.
      now rewrite <- chars_app, <- E.
    + unfold startsWith in H.
      destruct (strip_prefix p (String c s)) eqn:E; [|discriminate].
      apply strip_prefix_sound in E. exists [], (chars s0). simpl.
      now rewrite <- chars_app, <- E.
    + destruct (IH H) as [u [v Huv]]. exists (c :: u), v.
      change (chars (String c s)) with (c :: chars s). now rewrite Huv.
  - intros [u [v H]]. revert s H.
    induction u as [|c u IH]; intros s H; rewrite includes_unfold;
      apply orb_true_iff.
    + left. simpl in H.
      assert (E : s = p ++ string_of_list_ascii v).
      { apply chars_inj. now rewrite chars_app, chars_of_list. }
      unfold startsWith. now rewrite E, strip_prefix_complete.
    + right. destruct s as [|c' s]; [discriminate|].
      change (chars (String c' s)) with (c' :: chars s) in H.
      injection H as _ H. now apply IH.
Qed.

Lemma occurs_app_l (P a b : list ascii) : occurs P a -> occurs P (a ++ b).
Proof. intros [u [v ->]]. exists u, (v ++ b)%list. now rewrite <- !app_assoc. Qed.

Lemma occurs_app_r (P a b : list ascii) : occurs P b -> occurs P (a ++ b).
Proof. intros [u [v ->]]. exists (a ++ u)%list, v. now rewrite <- !app_assoc. Qed.

Lemma occurs_cons (P b : list ascii) (c : ascii) : occurs P b -> occurs P (c :: b).
Proof. intros [u [v ->]]. now exists (c :: u), v. Qed.

Lemma occurs_incl (P a : list ascii) : occurs P a -> incl P a.
Proof.
  intros [u [v ->]] c Hc. apply in_or_app. right. apply in_or_app. now left.
Qed.

Lemma occurs_split (P a b : list ascii) (c : ascii) :
  occurs P (a ++ c :: b) -> ~ In c P -> occurs P a \/ occurs P b.
Proof.
  intros [u [v H]] Hc. symmetry in H.
  destruct (@occurrence_split _ _ _ _ _ _ _ H Hc) as [[w Hw]|[w Hw]].
  - left. now exists u, w.
  - right. now exists w, v.
Qed.

Lemma occurs_before (P a x : list ascii) (c : ascii) :
  occurs (P ++ [c]) (a ++ x) -> ~ In c x -> occurs (P ++ [c]) a.
Proof.
  intros [u [v H]] Hc. symmetry in H.
  destruct (@occurrence_before _ _ _ _ _ _ _ H Hc) as [w Hw]. now exists u, w.
Qed.

Lemma not_in_chars (c : ascii) (l : list ascii) :
  existsb (Ascii.eqb c) l = false -> ~ In c l.
Proof.
  intros H Hin. assert (existsb (Ascii.eqb c) l = true); [|congruence].
  apply existsb_exists. exists c. split; [assumption | apply Ascii.eqb_refl].
Qed.

(** What [replace_first] does to a string: nothing, or it puts [r] in
    the place of an occurrence of [p]. *)
Lemma replace_first_spec p r s :
  replace_first p r s = s
  \/ exists u v, s = u ++ p ++ v /\ replace_first p r s = u ++ r ++ v.
Proof.
  induction s as [|c s IH].
  - simpl. destruct (strip_prefix p "") eqn:E; [|now left].
    right. exists "", s. split; [simpl; now apply strip_prefix_sound | reflexivity].
  - cbn [replace_first]. destruct (strip_prefix p (String c s)) eqn:E.
    + right. exists "", s0. split; [simpl; now apply strip_prefix_sound | reflexivity].
    + destruct IH as [IH|[u [v [H1 H2]]]].
      * left. now rewrite IH.
      * right. exists (String c u), v. simpl. now rewrite H2, <- H1.
Qed.

Lemma skip_digits_spec s :
  exists d, s = d ++ skip_digits s /\ Forall (fun c => is_digit c = true) (chars d).
Proof.
  induction s as [|c s [d [H1 H2]]].
  - exists "". split; [reflexivity | constructor].
  - simpl. destruct (is_digit c) eqn:E.
    + exists (String c d). split; [simpl; now rewrite <- H1|].
      now constructor.
    + exists "". split; [reflexivity | constructor].
Qed.

Lemma digits1_spec s r :
  digits1 s = Some r ->
  exists d, s = d ++ r /\ Forall (fun c => is_digit c = true) (chars d).
Proof.
  destruct s as [|c s]; simpl; [discriminate|].
  destruct (is_digit c) eqn:E; [|discriminate].
  intros [= <-]. destruct (skip_digits_spec s) as [d [H1 H2]].
  exists (String c d). split; [simpl; now rewrite <- H1 | now constructor].
Qed.

Lemma digit_directive_char (l : list ascii) :
  Forall (fun c => is_digit c = true) l -> Forall (fun c => directive_char c = true) l.
Proof. apply Forall_impl. intros c H. unfold directive_char. now rewrite H. Qed.

(** A match of the size directive is a slash, characters of the
    directive, and a slash. *)
Lemma match_size_directive_spec s rest :
  match_size_directive s = Some rest ->
  exists m, s = "/" ++ m ++ "/" ++ rest /\ Forall (fun c => directive_char c = true) (chars m).
Proof.
  unfold match_size_directive, and_then. intros H.
  destruct (strip_prefix "/-w" s) as [s1|] eqn:E1; [|discriminate].
  destruct (digits1 s1) as [s2|] eqn:E2; [|discriminate].
  destruct (strip_prefix "-h" s2) as [s3|] eqn:E3; [|discriminate].
  destruct (digits1 s3) as [s4|] eqn:E4; [|discriminate].
  apply strip_prefix_sound in E1, E3, H.
  apply digits1_spec in E2, E4.
  destruct E2 as [d1 [E2 Hd1]], E4 as [d2 [E4 Hd2]].
  exists ("-w" ++ d1 ++ "-h" ++ d2). split.
  - subst. simpl. now rewrite !append_assoc.
  - rewrite !chars_app. repeat (apply Forall_app; split);
      try (now apply digit_directive_char); repeat constructor.
Qed.

Lemma replace_size_directive_spec s :
  replace_size_directive s = s
  \/ exists u m v,
       s = u ++ "/" ++ m ++ "/" ++ v
       /\ replace_size_directive s = u ++ "/" ++ v
       /\ Forall (fun c => directive_char c = true) (chars m).
Proof.
  induction s as [|c s IH].
  - simpl. now left.
  - cbn [replace_size_directive].
    destruct (match_size_directive (String c s)) as [rest|] eqn:E.
    + right. destruct (match_size_directive_spec _ E) as [m [H1 H2]].
      exists "", m, rest. now repeat split.
    + destruct IH as [IH|[u [m [v [H1 [H2 H3]]]]]].
      * left. now rewrite IH.
      * right. exists (String c u), m, v.
        repeat split; [simpl; f_equal; exact H1 | rewrite H2; reflexivity | exact H3].
Qed.

(** Putting [photo-l/] in the place of [photo-s/] neither removes nor
    creates an occurrence of a text that has no slash and whose last
    character is none of [photo-s], [photo-l]. *)
Lemma replace_photo_occurs (P : list ascii) (c : ascii) s :
  ~ In "/"%char (P ++ [c]) ->
  ~ In c (chars "photo-s") -> ~ In c (chars "photo-l") ->
  occurs (P ++ [c]) (chars (replace_first "photo-s/" "photo-l/" s))
  <-> occurs (P ++ [c]) (chars s).
Proof.
  intros Hslash Hs Hl.
  destruct (replace_first_spec "photo-s/" "photo-l/" s) as [->|[u [v [H1 ->]]]];
    [reflexivity|].
  rewrite H1.
  change "photo-s/" with ("photo-s" ++ "/").
  change "photo-l/" with ("photo-l" ++ "/").
  rewrite !append_assoc, !chars_app, !(app_assoc (chars u)).
  change (chars "/" ++ chars v)%list with ("/"%char :: chars v).
  split; intros H; apply occurs_split in H; try assumption;
    (destruct H as [H|H];
     [apply occurs_before in H; [|assumption]; now do 2 apply occurs_app_l
     | apply occurs_app_r; now apply occurs_cons]).
Qed.

(** Taking a size directive out neither removes nor creates an occurrence
    of a text that has no slash and that has a character no directive
    has. *)
Lemma replace_size_directive_occurs (P : list ascii) (c : ascii) s :
  ~ In "/"%char P -> In c P -> directive_char c = false ->
  occurs P (chars (replace_size_directive s)) <-> occurs P (chars s).
Proof.
  intros Hslash Hc Hsize.
  destruct (replace_size_directive_spec s) as [->|[u [m [v [H1 [-> Hm]]]]]];
    [reflexivity|].
  rewrite H1, !chars_app.
  change (chars "/" ++ ?x)%list with ("/"%char :: x).
  split; intros H; apply occurs_split in H; try assumption.
  - destruct H as [H|H]; [now apply occurs_app_l|].
    apply occurs_app_r, occurs_cons, occurs_app_r. now apply occurs_cons.
  - destruct H as [H|H]; [now apply occurs_app_l|].
    apply occurs_split in H; try assumption.
    destruct H as [H|H].
    + exfalso. apply occurs_incl in H.
      rewrite Forall_forall in Hm. specialize (Hm c (H c Hc)). congruence.
    + apply occurs_app_r. now apply occurs_cons.
Qed.
End StringFacts.

(* ================================================================== *)
(** * Facts about sets *)
(* ================================================================== *)

Section SetFacts.
Context {A : Type}.
Variable eqb : A -> A -> bool.
Hypothesis eqb_eq : forall x y, eqb x y = true <-> x = y.

Lemma mem_In (x : A) (s : list A) : JsSet.mem eqb x s = true <-> In x s.
Proof.
  unfold JsSet.mem. rewrite existsb_exists. split.
  - intros [y [Hy E]]. apply eqb_eq in E. now subst.
  - intros H. exists x. split; [assumption | now apply eqb_eq].
Qed.

Lemma add_cases (s : list A) (x : A) :
  (In x s /\ JsSet.add eqb s x = s) \/ (~ In x s /\ JsSet.add eqb s x = s ++ [x]).
Proof.
  unfold JsSet.add. destruct (JsSet.mem eqb x s) eqn:E.
  - left. split; [now apply mem_In | reflexivity].
  - right. split; [|reflexivity]. intros H. apply mem_In in H. congruence.
Qed.

Lemma add_In (s : list A) (x y : A) :
  In y (JsSet.add eqb s x) <-> In y s \/ y = x.
Proof.
  destruct (add_cases s x) as [[Hx ->]|[Hx ->]].
  - split; [tauto | intros [H| ->]; assumption].
  - rewrite in_app_iff. simpl. intuition.
Qed.

Lemma add_NoDup (s : list A) (x : A) : NoDup s -> NoDup (JsSet.add eqb s x).
Proof.
  intros H. destruct (add_cases s x) as [[Hx ->]|[Hx ->]]; [assumption|].
  apply NoDup_app; [assumption | repeat constructor; auto |].
  intros a Ha [<-|[]]. contradiction.
Qed.

Lemma fold_add_In (l s : list A) (y : A) :
  In y (fold_left (JsSet.add eqb) l s) <-> In y s \/ In y l.
Proof.
  revert s. induction l as [|x l IH]; simpl; intros s; [tauto|].
  rewrite IH, add_In. intuition.
Qed.

Lemma fold_add_NoDup (l s : list A) :
  NoDup s -> NoDup (fold_left (JsSet.add eqb) l s).
Proof.
  revert s. induction l as [|x l IH]; simpl; intros s H; [assumption|].
  now apply IH, add_NoDup.
Qed.

Lemma first_index_lt (l : list A) (x : A) :
  In x l -> (JsArray.first_index eqb l x < List.length l)%nat.
Proof.
  induction l as [|y l IH]; simpl; [tauto|].
  destruct (eqb y x) eqn:E; [lia|].
  intros [->|H]; [|apply IH in H; lia].
  assert (eqb x x = true) by now apply eqb_eq. congruence.
Qed.

Lemma first_index_app (l : list A) (x y : A) :
  In x l -> JsArray.first_index eqb (l ++ [y]) x = JsArray.first_index eqb l x.
Proof.
  induction l as [|z l IH]; simpl; [tauto|].
  destruct (eqb z x) eqn:E; [reflexivity|].
  intros [->|H]; [|now rewrite IH].
  assert (eqb x x = true) by now apply eqb_eq. congruence.
Qed.

Lemma first_index_new (l : list A) (x : A) :
  ~ In x l -> JsArray.first_index eqb (l ++ [x]) x = List.length l.
Proof.
  induction l as [|z l IH]; simpl; intros H.
  - assert (eqb x x = true) by now apply eqb_eq. now rewrite H0.
  - destruct (eqb z x) eqn:E.
    + apply eqb_eq in E. tauto.
    + rewrite IH; tauto.
Qed.

(** The elements of the set stand in the order in which the loop first
    saw them. *)
Lemma fold_add_first_seen (l : list A) :
  StronglySorted lt
    (map (JsArray.first_index eqb l) (fold_left (JsSet.add eqb) l [])).
Proof.
  induction l as [|x l IH] using rev_ind; [constructor|].
  rewrite fold_left_app. simpl.
  set (r := fold_left (JsSet.add eqb) l []) in *.
  assert (Hr : forall y, In y r <-> In y l).
  { intros y. unfold r. rewrite fold_add_In. simpl. tauto. }
  assert (E : map (JsArray.first_index eqb (l ++ [x])) r
              = map (JsArray.first_index eqb l) r).
  { apply map_ext_in. intros y Hy. apply first_index_app. now apply Hr. }
  destruct (add_cases r x) as [[Hx ->]|[Hx ->]].
  - now rewrite E.
  - rewrite map_app, E. simpl. rewrite first_index_new by (now rewrite <- Hr).
    apply StronglySorted_snoc; [assumption|].
    apply Forall_map, Forall_forall. intros y Hy.
    apply first_index_lt. now apply Hr.
Qed.
End SetFacts.

Section SetMapFacts.
Context {A B : Type}.
Variable eqbA : A -> A -> bool.
Variable eqbB : B -> B -> bool.
Variable f : A -> B.
Hypothesis eqbA_eq : forall x y, eqbA x y = true <-> x = y.
Hypothesis eqbB_eq : forall x y, eqbB x y = true <-> x = y.
Hypothesis f_inj : forall x y, f x = f y -> x = y.

(** A set of keys is the image of the set of what the keys stand for, when
    no two things have the same key. *)
Lemma add_map (s : list A) (x : A) :
  JsSet.add eqbB (map f s) (f x) = map f (JsSet.add eqbA s x).
Proof.
  destruct (add_cases eqbA eqbA_eq s x) as [[Hx ->]|[Hx ->]];
    destruct (add_cases eqbB eqbB_eq (map f s) (f x)) as [[Hy ->]|[Hy ->]].
  - reflexivity.
  - exfalso. apply Hy. now apply in_map.
  - exfalso. apply in_map_iff in Hy. destruct Hy as [y [E Hy]].
    apply f_inj in E. now subst.
  - now rewrite map_app.
Qed.

Lemma fold_add_map (l s : list A) :
  fold_left (JsSet.add eqbB) (map f l) (map f s)
  = map f (fold_left (JsSet.add eqbA) l s).
Proof.
  revert s. induction l as [|x l IH]; intros s; simpl; [reflexivity|].
  now rewrite add_map, IH.
Qed.
End SetMapFacts.

(* ================================================================== *)
(** * The curated photo source *)
(* ================================================================== *)

Section PexelsFacts.
Import Pexels.

Lemma to_number_exact (z : Z) :
  Z.abs z < 9007199254740992 -> JsNumber.to_number z = JsNumber.Finite z.
Proof.
  intros H. unfold JsNumber.to_number, JsNumber.round53.
  destruct (Z.ltb_spec (Z.abs z) 9007199254740992); [|lia].
  assert (9007199254740992 < 2 ^ 1024) by reflexivity.
  destruct (Z.leb_spec (2 ^ 1024) z); [lia|].
  destruct (Z.leb_spec z (- 2 ^ 1024)); [lia|]. reflexivity.
Qed.

(** On photos whose areas numbers hold exactly, the comparator is the
    difference of the areas. *)
Lemma byAreaDesc_key (a b : Photo) :
  exact_area a -> exact_area b -> byAreaDesc a b = area b - area a.
Proof.
  unfold exact_area, byAreaDesc, JsNumber.times, area. intros Ha Hb.
  rewrite !to_number_exact by lia. cbn [JsNumber.minus].
  rewrite to_number_exact by lia. reflexivity.
Qed.

Lemma isLarge_exact (ps : list Photo) :
  (forall p, In p ps -> isLarge p = true -> area p < 9007199254740992) ->
  Forall exact_area (filter isLarge ps).
Proof.
  intros H. apply Forall_forall. intros p Hp. apply filter_In in Hp.
  destruct Hp as [Hin Hl]. split; [|now apply H].
  unfold isLarge in Hl. apply andb_true_iff in Hl. destruct Hl as [Hw Hh].
  apply Z.leb_le in Hw, Hh. unfold area. nia.
Qed.

Lemma filter_all (l : list Photo) : filter (fun _ => true) l = l.
Proof. induction l; simpl; congruence. Qed.

(** With five large photos or more the selection is the head of the
    sorted large photos. *)
Lemma select_large (ps : list Photo) :
  (5 <= List.length (filter isLarge ps))%nat ->
  select ps = firstn 5 (JsArray.sort byAreaDesc (filter isLarge ps)).
Proof.
  intros H. unfold select. rewrite sort_length.
  destruct (Z.leb_spec 5 (Z.of_nat (List.length (filter isLarge ps)))); [|lia].
  now rewrite slice0_nonneg by lia.
Qed.

(** With fewer, it is the sorted large photos followed by the head of all
    photos, sorted, cut at five. *)
Lemma select_backfill (ps : list Photo) :
  (List.length (filter isLarge ps) < 5)%nat ->
  select ps =
    firstn 5 (JsArray.sort byAreaDesc (filter isLarge ps)
              ++ firstn 5 (JsArray.sort byAreaDesc ps)).
Proof.
  intros H. unfold select. rewrite sort_length, filter_all.
  destruct (Z.leb_spec 5 (Z.of_nat (List.length (filter isLarge ps)))); [lia|].
  rewrite !slice0_nonneg by lia. unfold JsArray.concat.
  replace (Z.to_nat (Z.max 5 (Z.of_nat (List.length (filter isLarge ps))))) with 5%nat by lia.
  reflexivity.
Qed.

Lemma filter_length_le (f : Photo -> bool) (l : list Photo) :
  (List.length (filter f l) <= List.length l)%nat.
Proof. induction l; simpl; [lia | destruct (f a); simpl; lia]. Qed.

Lemma select_length (ps : list Photo) :
  (5 <= List.length ps)%nat -> List.length (select ps) = 5%nat.
Proof.
  intros H. destruct (Nat.le_gt_cases 5 (List.length (filter isLarge ps))) as [Hl|Hl].
  - rewrite select_large by assumption. rewrite length_firstn, sort_length. lia.
  - rewrite select_backfill by assumption.
    rewrite length_firstn, length_app, length_firstn, !sort_length. lia.
Qed.

Lemma searchPhotos_returns (API_KEY : string) fetch (query : string) response ps :
  API_KEY <> ""%string ->
  fetch (search_request API_KEY query) = Some response ->
  ok response = true ->
  photos (json response) = Some ps ->
  searchPhotos API_KEY fetch query = Returned (select ps).
Proof.
  intros Hkey Hfetch Hok Hps. unfold searchPhotos.
  destruct (String.eqb_spec API_KEY ""); [contradiction|].
  rewrite Hfetch, Hok, Hps. reflexivity.
Qed.
End PexelsFacts.

Section PexelsClaims.
Import Pexels.

(** C1.  Whenever the API key is set and the Pexels API answers
    successfully with a [photos] list of at least 5 entries, of any
    resolution, [searchPhotos] returns a list of exactly 5 photos. *)
Theorem searchPhotos_returns_five
    (API_KEY : string) fetch (query : string) response ps :
  API_KEY <> ""%string ->
  fetch (search_request API_KEY query) = Some response ->
  ok response = true ->
  photos (json response) = Some ps ->
  (5 <= List.length ps)%nat ->
  exists out,
    searchPhotos API_KEY fetch query = Returned out /\ List.length out = 5%nat.
Proof.
  intros Hkey Hfetch Hok Hps Hlen. exists (select ps). split.
  - now apply searchPhotos_returns with response.
  - now apply select_length.
Qed.

Lemma searchPhotos_returns_five_witness :
  exists out,
    searchPhotos "key" (fun _ => Some (Samples.respond_with Samples.six_large))
                 "Eiffel Tower" = Returned out
    /\ List.length out = 5%nat.
Proof.
  apply (@searchPhotos_returns_five "key" _ "Eiffel Tower"
           (Samples.respond_with Samples.six_large) Samples.six_large);
    [discriminate | reflexivity | reflexivity | reflexivity | simpl; lia].
Defined.

(** What [searchPhotos] returns for the five large photos of which the
    first two have areas above [2 ^ 53]. *)
Example select_huge_pair : map id (select Samples.huge_pair) = [1; 2; 3; 4; 5].
Proof. vm_compute. reflexivity. Qed.

(** C2, as stated, fails: of the five large photos of this response the
    first has the area 94906266 * 94906268 and the second the larger area
    94906267 * 94906267; as numbers the two products are the same, the
    comparator finds no difference, and the list returned has the first
    before the second: it is not in descending order of area. *)
Lemma searchPhotos_huge_areas_unordered :
  exists out,
    searchPhotos "key" (fun _ => Some (Samples.respond_with Samples.huge_pair))
                 "Eiffel Tower" = Returned out
    /\ (5 <= List.length (filter isLarge Samples.huge_pair))%nat
    /\ ~ StronglySorted (fun a b => area b <= area a) out.
Proof.
  exists (select Samples.huge_pair). split; [reflexivity|]. split; [simpl; lia|].
  assert (E : select Samples.huge_pair = Samples.huge_pair) by (vm_compute; reflexivity).
  rewrite E. intros H. apply StronglySorted_inv in H. destruct H as [_ H].
  apply Forall_inv in H. vm_compute in H. apply H. reflexivity.
Qed.

(** C2, amended.  Whenever at least 5 photos of the response are large
    (width at least 2000 and height at least 1200) and the area of every
    large photo is below [2 ^ 53], so that a number holds it exactly,
    [searchPhotos] returns exactly 5 photos; each is a large photo of the
    response; they are in descending order of area; among photos of one
    area they keep the order of the response (those returned are the first
    of that area among the large photos); and no large photo left out has
    a larger area than one returned. *)
Theorem searchPhotos_five_largest
    (API_KEY : string) fetch (query : string) response ps :
  API_KEY <> ""%string ->
  fetch (search_request API_KEY query) = Some response ->
  ok response = true ->
  photos (json response) = Some ps ->
  (5 <= List.length (filter isLarge ps))%nat ->
  (forall p, In p ps -> isLarge p = true -> area p < 9007199254740992) ->
  exists out,
    searchPhotos API_KEY fetch query = Returned out
    /\ List.length out = 5%nat
    /\ Forall (fun p => In p ps /\ isLarge p = true) out
    /\ StronglySorted (fun a b => area b <= area a) out
    /\ (forall k, exists later,
          filter (fun p => area p =? k) (filter isLarge ps)
          = filter (fun p => area p =? k) out ++ later)
    /\ (exists rest,
          Permutation (out ++ rest) (filter isLarge ps)
          /\ Forall (fun p => Forall (fun r => area r <= area p) rest) out).
Proof.
  intros Hkey Hfetch Hok Hps Hlen Hexact.
  apply isLarge_exact in Hexact.
  exists (select ps). split; [now apply searchPhotos_returns with response|].
  rewrite select_large by assumption.
  set (sorted := JsArray.sort byAreaDesc (filter isLarge ps)).
  assert (Hsplit : sorted = firstn 5 sorted ++ skipn 5 sorted)
    by (symmetry; apply firstn_skipn).
  assert (Hsorted : StronglySorted (fun a b => area b <= area a) sorted)
    by (apply (@sort_sorted _ byAreaDesc area exact_area byAreaDesc_key), Hexact).
  rewrite Hsplit in Hsorted. apply StronglySorted_app_inv in Hsorted.
  destruct Hsorted as [Hs Hrest].
  repeat split.
  - rewrite length_firstn. unfold sorted. rewrite sort_length. lia.
  - apply Forall_forall. intros p Hp. apply firstn_incl in Hp.
    apply sort_in in Hp. apply filter_In in Hp. exact Hp.
  - exact Hs.
  - intros k. exists (filter (fun p => area p =? k) (skipn 5 sorted)).
    rewrite <- filter_app, <- Hsplit. unfold sorted.
    symmetry. apply (@sort_stable _ byAreaDesc area exact_area byAreaDesc_key), Hexact.
  - exists (skipn 5 sorted). split.
    + rewrite <- Hsplit. apply sort_perm.
    + exact Hrest.
Qed.

Lemma searchPhotos_five_largest_witness :
  exists out,
    searchPhotos "key" (fun _ => Some (Samples.respond_with Samples.six_large))
                 "Eiffel Tower" = Returned out
    /\ List.length out = 5%nat
    /\ Forall (fun p => In p Samples.six_large /\ isLarge p = true) out
    /\ StronglySorted (fun a b => area b <= area a) out
    /\ (forall k, exists later,
          filter (fun p => area p =? k) (filter isLarge Samples.six_large)
          = filter (fun p => area p =? k) out ++ later)
    /\ (exists rest,
          Permutation (out ++ rest) (filter isLarge Samples.six_large)
          /\ Forall (fun p => Forall (fun r => area r <= area p) rest) out).
Proof.
  apply (@searchPhotos_five_largest "key" _ "Eiffel Tower"
           (Samples.respond_with Samples.six_large) Samples.six_large);
    [discriminate | reflexivity | reflexivity | reflexivity | simpl; lia |].
  intros p Hp _. simpl in Hp.
  repeat (destruct Hp as [<-|Hp]; [reflexivity|]). destruct Hp.
Defined.

(** The selection on the six large sample photos: the two photos of area
    12000000 come out in the order of the response, 2 before 4. *)
Example select_six_large :
  map id (select Samples.six_large) = [3; 6; 2; 4; 5].
Proof. reflexivity. Qed.

(** C10.  Whenever the response has fewer than 5 photos and at least one
    of them is large, the list [searchPhotos] returns contains a large
    photo of the response twice: its entries are not pairwise distinct. *)
Theorem searchPhotos_backfill_repeats
    (API_KEY : string) fetch (query : string) response ps :
  API_KEY <> ""%string ->
  fetch (search_request API_KEY query) = Some response ->
  ok response = true ->
  photos (json response) = Some ps ->
  (List.length ps < 5)%nat ->
  (exists p, In p ps /\ isLarge p = true) ->
  exists out,
    searchPhotos API_KEY fetch query = Returned out
    /\ ~ NoDup out
    /\ exists p, In p ps /\ isLarge p = true
                 /\ (2 <= count_occ Photo_eq_dec out p)%nat.
Proof.
  intros Hkey Hfetch Hok Hps Hlen [p0 [Hin0 Hlarge0]].
  exists (select ps). split; [now apply searchPhotos_returns with response|].
  pose proof (filter_length_le isLarge ps) as Hfl.
  rewrite select_backfill by lia.
  set (F := JsArray.sort byAreaDesc (filter isLarge ps)).
  set (S := JsArray.sort byAreaDesc ps).
  assert (HF : List.length F = List.length (filter isLarge ps)) by apply sort_length.
  assert (HS : List.length S = List.length ps) by apply sort_length.
  rewrite (firstn_all2 (n := 5) S) by lia.
  rewrite firstn_app, (firstn_all2 (n := 5) F) by lia.
  set (S1 := firstn (5 - List.length F) S).
  destruct (@pigeon_twice _ Photo_eq_dec F S1 (skipn (5 - List.length F) S))
    as [p [Hp Hc]].
  - intros x Hx. apply in_app_or. unfold S1. rewrite firstn_skipn.
    apply sort_in. apply sort_in in Hx. apply filter_In in Hx. tauto.
  - rewrite length_skipn.
    assert (0 < List.length F)%nat; [|lia].
    rewrite HF. destruct (filter isLarge ps) eqn:E; simpl; [|lia].
    assert (In p0 (filter isLarge ps)) by (apply filter_In; tauto).
    rewrite E in H. contradiction.
  - split; [eapply twice_not_NoDup; exact Hc|].
    exists p. apply sort_in, filter_In in Hp. tauto.
Qed.

Lemma searchPhotos_backfill_repeats_witness :
  exists out,
    searchPhotos "key" (fun _ => Some (Samples.respond_with Samples.one_large_of_four))
                 "Eiffel Tower" = Returned out
    /\ ~ NoDup out
    /\ exists p, In p Samples.one_large_of_four /\ isLarge p = true
                 /\ (2 <= count_occ Photo_eq_dec out p)%nat.
Proof.
  apply (@searchPhotos_backfill_repeats "key" _ "Eiffel Tower"
           (Samples.respond_with Samples.one_large_of_four)
           Samples.one_large_of_four);
    [discriminate | reflexivity | reflexivity | reflexivity | simpl; lia |].
  exists (Samples.photo 4 2000 1200). split; [simpl; tauto | reflexivity].
Defined.

(** There the large photo 4 opens the list and closes it. *)
Example select_one_large_of_four :
  map id (select Samples.one_large_of_four) = [4; 1; 2; 3; 4].
Proof. reflexivity. Qed.
End PexelsClaims.

(* ================================================================== *)
(** * The image extractor *)
(* ================================================================== *)

Section ExtractorFacts.
Import JsString Json Server.
Local Open Scope string_scope.

Lemma Descriptor_eqb_eq (a b : Descriptor) : Descriptor_eqb a b = true <-> a = b.
Proof.
  unfold Descriptor_eqb. rewrite andb_true_iff, !String.eqb_eq.
  destruct a, b; simpl. split; [intros [-> ->]; reflexivity | intros [= -> ->]; auto].
Qed.

(** [JSON.parse] reads back the string [JSON.stringify] wrote. *)
Lemma read_string_escape (s rest : string) :
  read_string (escape_all s ++ String dquote rest) = Some (s, rest).
Proof.
  induction s as [|c s IH].
  - reflexivity.
  - destruct c as [[] [] [] [] [] [] [] []]; cbn; rewrite IH; reflexivity.
Qed.

Lemma JSON_stringify_shape (d : Descriptor) :
  JSON_stringify d =
    ("{" ++ quote "src" ++ ":" ++ String dquote "")
    ++ escape_all (src d) ++ String dquote
         (("," ++ quote "alt" ++ ":" ++ String dquote "")
          ++ escape_all (alt d) ++ String dquote "}").
Proof.
  unfold JSON_stringify, quote. cbn [append escape_all escape].
  cbn. rewrite !append_assoc. reflexivity.
Qed.

(** [JSON.parse(JSON.stringify({ src, alt }))] is [{ src, alt }]. *)
Lemma JSON_parse_stringify (d : Descriptor) : JSON_parse (JSON_stringify d) = Some d.
Proof.
  rewrite JSON_stringify_shape. unfold JSON_parse, and_then.
  rewrite strip_prefix_complete, read_string_escape. cbn [snd fst].
  rewrite strip_prefix_complete, read_string_escape. cbn [snd fst].
  rewrite String.eqb_refl. now destruct d.
Qed.

(** No two descriptors have the same JSON text. *)
Lemma JSON_stringify_inj (a b : Descriptor) :
  JSON_stringify a = JSON_stringify b -> a = b.
Proof.
  intros H. apply (f_equal JSON_parse) in H.
  rewrite !JSON_parse_stringify in H. congruence.
Qed.

Lemma parse_all_stringify (l : list Descriptor) :
  parse_all (map JSON_stringify l) = Some l.
Proof.
  induction l as [|d l IH]; simpl; [reflexivity|].
  now rewrite JSON_parse_stringify, IH.
Qed.

Lemma each_img_descriptor (images : list string) (img : Img) :
  each_img images img =
    match descriptor_of img with
    | Some d => JsSet.add String.eqb images (JSON_stringify d)
    | None => images
    end.
Proof.
  unfold each_img, descriptor_of.
  destruct (falsy _); [reflexivity|].
  destruct (includes _ "data:image"); [reflexivity|].
  destruct (accept _); reflexivity.
Qed.

(** The loop over the images adds the JSON texts of the emitted
    descriptors one by one. *)
Lemma fold_each_img (l : list Img) (images : list string) :
  fold_left each_img l images =
    fold_left (JsSet.add String.eqb)
      (map JSON_stringify
         (flat_map (fun img => match descriptor_of img with
                               | Some d => [d] | None => [] end) l))
      images.
Proof.
  revert images. induction l as [|img l IH]; intros images; simpl; [reflexivity|].
  rewrite map_app, fold_left_app, IH, each_img_descriptor.
  destruct (descriptor_of img); reflexivity.
Qed.

(** Keeping the JSON texts in a set and reading them back comes to keeping
    the descriptors themselves in a set. *)
Lemma extract_images_spec (doc : Document) (max : Z) :
  extract_images doc max =
    Some (JsArray.slice0
            (fold_left (JsSet.add Descriptor_eqb) (emitted doc) []) max).
Proof.
  unfold extract_images, emitted. rewrite fold_each_img.
  change (@nil string) with (map JSON_stringify []).
  rewrite (fold_add_map Descriptor_eqb String.eqb JSON_stringify
             Descriptor_eqb_eq String.eqb_eq JSON_stringify_inj).
  rewrite slice0_map. apply parse_all_stringify.
Qed.

Lemma extract_images_prefix (doc : Document) (max : Z) :
  exists k,
    extract_images doc max
    = Some (firstn k (fold_left (JsSet.add Descriptor_eqb) (emitted doc) [])).
Proof.
  rewrite extract_images_spec.
  destruct (slice0_prefix (fold_left (JsSet.add Descriptor_eqb) (emitted doc) []) max)
    as [k ->].
  now exists k.
Qed.

(** Every descriptor returned comes from an image of the page. *)
Lemma extract_images_emitted (doc : Document) (max : Z)
    (out : list Descriptor) (d : Descriptor) :
  extract_images doc max = Some out -> In d out ->
  exists img, In img (imgs doc) /\ descriptor_of img = Some d.
Proof.
  destruct (extract_images_prefix doc max) as [k ->]. intros [= <-] H.
  apply firstn_incl in H. apply (fold_add_In _ Descriptor_eqb_eq) in H.
  destruct H as [[]|H]. unfold emitted in H. apply in_flat_map in H.
  destruct H as [img [Hi Hd]]. exists img. split; [assumption|].
  destruct (descriptor_of img); simpl in Hd; [|contradiction].
  destruct Hd as [->|[]]. reflexivity.
Qed.

(** A source [accept] lets through has the name of the first CDN domain
    in it: the name of the second ends with it. *)
Lemma accept_includes (src : string) :
  accept src = true -> includes src "media-cdn.tripadvisor.com" = true.
Proof.
  unfold accept. intros H. apply orb_true_iff in H. destruct H as [H|H]; [assumption|].
  apply includes_occurs. apply includes_occurs in H. destruct H as [u [v H]].
  exists (u ++ chars "dynamic-")%list, v. rewrite H, <- !app_assoc. reflexivity.
Qed.

Lemma normalize_keeps_cdn (src : string) :
  includes (normalize src) "media-cdn.tripadvisor.com" = true
  <-> includes src "media-cdn.tripadvisor.com" = true.
Proof.
  unfold normalize. rewrite !includes_occurs.
  rewrite (@replace_size_directive_occurs _ "m"%char).
  - change (chars "media-cdn.tripadvisor.com")
      with (chars "media-cdn.tripadvisor.co" ++ ["m"%char])%list.
    apply replace_photo_occurs; apply not_in_chars; reflexivity.
  - apply not_in_chars. reflexivity.
  - simpl. tauto.
  - reflexivity.
Qed.

Lemma normalize_keeps_data_image (src : string) :
  includes (normalize src) "data:image" = true
  <-> includes src "data:image" = true.
Proof.
  unfold normalize. rewrite !includes_occurs.
  rewrite (@replace_size_directive_occurs _ "d"%char).
  - change (chars "data:image") with (chars "data:imag" ++ ["e"%char])%list.
    apply replace_photo_occurs; apply not_in_chars; reflexivity.
  - apply not_in_chars. reflexivity.
  - simpl. tauto.
  - reflexivity.
Qed.
End ExtractorFacts.

Section ExtractorClaims.
Import JsString Server.
Local Open Scope string_scope.

(** What the extractor returns for the page whose images are not from
    the CDN. *)
Example extract_images_foreign_page :
  extract_images Samples.foreign_page 10 =
    Some [{| src := "https://evil.example/media-cdn.tripadvisor.com/a.jpg"; alt := "" |};
          {| src := "data:text/html,media-cdn.tripadvisor.com"; alt := "" |}].
Proof. reflexivity. Qed.

(** C5.  The code departs from the claim.  For the detail page with an
    image at [https://evil.example/media-cdn.tripadvisor.com/a.jpg] and an
    image whose source is [data:text/html,media-cdn.tripadvisor.com], the
    extractor emits the two sources: the host of the first is
    [evil.example], which is none of the two CDN domains, and the second
    is a data URI.  The test [accept] looks for the name of a CDN domain
    anywhere in the source, and the guard before it for [data:image]
    only. *)
Theorem extract_images_foreign_host :
  exists d1 d2,
    extract_images Samples.foreign_page 10 = Some [d1; d2]
    /\ url_host (src d1) = "evil.example"
    /\ cdn_host (src d1) = false
    /\ data_uri (src d2) = true.
Proof. do 2 eexists. repeat split; reflexivity. Qed.

(** What the two tests of the extractor do ensure: the source of every
    descriptor emitted contains the text [media-cdn.tripadvisor.com] and
    does not contain the text [data:image]. *)
Lemma extract_images_cdn_text
    (doc : Document) (max : Z) (out : list Descriptor) (d : Descriptor) :
  extract_images doc max = Some out ->
  In d out ->
  includes (src d) "media-cdn.tripadvisor.com" = true
  /\ includes (src d) "data:image" = false.
Proof.
  intros Hout H. apply (@extract_images_emitted doc max out d Hout) in H.
  destruct H as [img [_ H]].
  unfold descriptor_of in H.
  set (raw := or_else (img_src img) (or_else (img_data_src img) "")) in *.
  destruct (falsy raw); [discriminate|].
  destruct (includes raw "data:image") eqn:Edata; [discriminate|].
  destruct (accept raw) eqn:Eacc; [|discriminate].
  simpl in H. injection H as <-. simpl. split.
  - apply normalize_keeps_cdn. now apply accept_includes.
  - destruct (includes (normalize raw) "data:image") eqn:E; [|reflexivity].
    apply (proj1 (normalize_keeps_data_image raw)) in E. congruence.
Qed.

(** C6.  For every detail page and every cap [max] that is not negative,
    the extractor returns a list in which no descriptor, as a pair of
    normalized source and alt text, stands twice; the list has at most
    [max] entries; its entries stand in the order in which the page first
    shows them, and each comes from the page; and a descriptor of the page
    is missing only when the cap is reached. *)
Theorem extract_images_distinct_capped (doc : Document) (max : Z) :
  0 <= max ->
  exists out,
    extract_images doc max = Some out
    /\ NoDup out
    /\ Z.of_nat (List.length out) <= max
    /\ StronglySorted lt
         (map (JsArray.first_index Descriptor_eqb (emitted doc)) out)
    /\ (forall d, In d out -> In d (emitted doc))
    /\ (forall d, In d (emitted doc) ->
                  In d out \/ Z.of_nat (List.length out) = max).
Proof.
  intros Hmax. rewrite extract_images_spec, slice0_nonneg by assumption.
  eexists. split; [reflexivity|].
  set (r := fold_left (JsSet.add Descriptor_eqb) (emitted doc) []).
  assert (Hnd : NoDup r) by (apply (fold_add_NoDup _ Descriptor_eqb_eq); constructor).
  assert (Hin : forall d, In d r <-> In d (emitted doc)).
  { intros d. unfold r. rewrite (fold_add_In _ Descriptor_eqb_eq). simpl. tauto. }
  repeat split.
  - rewrite <- (firstn_skipn (Z.to_nat max) r) in Hnd.
    now apply NoDup_app_remove_r in Hnd.
  - rewrite length_firstn. lia.
  - rewrite <- firstn_map. apply StronglySorted_firstn.
    apply (fold_add_first_seen _ Descriptor_eqb_eq).
  - intros d Hd. apply Hin. now apply firstn_incl in Hd.
  - intros d Hd. apply Hin in Hd. rewrite length_firstn.
    destruct (Nat.le_gt_cases (List.length r) (Z.to_nat max)) as [Hle|Hgt].
    + left. now rewrite firstn_all2.
    + right. lia.
Qed.

Lemma extract_images_distinct_capped_witness :
  exists out,
    extract_images Samples.detail_page 1 = Some out
    /\ NoDup out
    /\ Z.of_nat (List.length out) <= 1
    /\ StronglySorted lt
         (map (JsArray.first_index Descriptor_eqb (emitted Samples.detail_page)) out)
    /\ (forall d, In d out -> In d (emitted Samples.detail_page))
    /\ (forall d, In d (emitted Samples.detail_page) ->
                  In d out \/ Z.of_nat (List.length out) = 1).
Proof. apply (@extract_images_distinct_capped Samples.detail_page 1). lia. Defined.

(** The detail page of the samples: the thumbnail and the large picture
    become one descriptor, the lazy image the second; the inline image
    and the foreign one are left out. *)
Example extract_images_detail_page :
  extract_images Samples.detail_page 10 =
    Some [{| src := "https://media-cdn.tripadvisor.com/media/photo-l/01/a.jpg";
             alt := "Tower" |};
          {| src := "https://dynamic-media-cdn.tripadvisor.com/media/b.jpg";
             alt := "" |}].
Proof. reflexivity. Qed.

(** The JSON text of a descriptor: its nine pieces, with a double quote
    between each and the next. *)
Example JSON_stringify_pieces :
  JSON_stringify {| src := "a.jpg"; alt := "x" |}
  = String.concat (String Json.dquote "")
      ["{"; "src"; ":"; "a.jpg"; ","; "alt"; ":"; "x"; "}"].
Proof. reflexivity. Qed.
End ExtractorClaims.

(* ================================================================== *)
(** * The scrape source *)
(* ================================================================== *)

Section ScrapeFacts.
Import JsString Server.
Local Open Scope string_scope.

(** An anchor that matches neither heuristic leaves the empty set of
    candidates empty. *)
Lemma each_anchor_no_match (query : string) (a : Anchor) :
  (falsy (or_else (href a) "") = false ->
   path_pattern (or_else (href a) "") = false
   /\ includes (toLowerCase (text a)) (toLowerCase query) = false) ->
  each_anchor query [] a = [].
Proof.
  intros H. unfold each_anchor.
  destruct (falsy (or_else (href a) "")); [reflexivity|].
  destruct H as [-> ->]; reflexivity.
Qed.

Lemma placeHref_no_match (query : string) (doc : Document) :
  (forall a, In a (anchors doc) ->
     falsy (or_else (href a) "") = false ->
     path_pattern (or_else (href a) "") = false
     /\ includes (toLowerCase (text a)) (toLowerCase query) = false) ->
  placeHref query doc = None.
Proof.
  unfold placeHref. induction (anchors doc) as [|a l IH]; intros H; simpl.
  - reflexivity.
  - rewrite each_anchor_no_match by (apply H; now left).
    apply IH. intros a' Ha'. apply H. now right.
Qed.

(** C8.  When the search page arrives and none of its anchors with an
    [href] matches a heuristic (the path patterns on the [href], or the
    lowercased query within the lowercased anchor text), no place link is
    found, and [fetchTripAdvisorImages] returns the empty list having made
    one request, for the search page: there is no second fetch. *)
Theorem no_candidate_no_second_fetch
    (query : string) (max : Z) (net : Network) (st : State) (doc : Document) :
  net (requests st) (GetPage (buildTripAdvisorSearchUrl query) None) = inr doc ->
  (forall a, In a (anchors doc) ->
     falsy (or_else (href a) "") = false ->
     path_pattern (or_else (href a) "") = false
     /\ includes (toLowerCase (text a)) (toLowerCase query) = false) ->
  placeHref query doc = None
  /\ fetchTripAdvisorImages query max net st =
       (Ok [],
        {| requests := requests st ++ [GetPage (buildTripAdvisorSearchUrl query) None];
           console := console st |}).
Proof.
  intros Hnet Hanchors. pose proof (placeHref_no_match query doc Hanchors) as Hp.
  split; [assumption|].
  unfold fetchTripAdvisorImages, bind, axios_get. rewrite Hnet, Hp. reflexivity.
Qed.

Lemma no_candidate_no_second_fetch_witness :
  placeHref "Nonexistent Place XYZ" Samples.search_page_without_place = None
  /\ fetchTripAdvisorImages "Nonexistent Place XYZ" 10 Samples.empty_network initial =
       (Ok [],
        {| requests :=
             [GetPage (buildTripAdvisorSearchUrl "Nonexistent Place XYZ") None];
           console := [] |}).
Proof.
  apply (@no_candidate_no_second_fetch "Nonexistent Place XYZ" 10
           Samples.empty_network initial Samples.search_page_without_place).
  - reflexivity.
  - intros a Ha Hhref.
    repeat (destruct Ha as [<-|Ha]; [split; reflexivity || discriminate Hhref|]).
    destruct Ha.
Defined.
End ScrapeFacts.

(* ================================================================== *)
(** * The encyclopedia source *)
(* ================================================================== *)

Section WikipediaFacts.
Import JsString Server.
Local Open Scope string_scope.

Lemma endsWith_suffix (s p : string) :
  endsWith s p = true -> exists stem, s = stem ++ p.
Proof.
  induction s as [|c s IH]; cbn [endsWith]; intros H; apply orb_true_iff in H;
    destruct H as [H|H]; try discriminate.
  - apply String.eqb_eq in H. now exists "".
  - apply String.eqb_eq in H. now exists "".
  - destruct (IH H) as [stem ->]. now exists (String c stem).
Qed.

(** A string whose lowercase form ends in [e] ends in a text whose
    lowercase form is [e]. *)
Lemma toLowerCase_suffix (stem e : string) :
  forall s, toLowerCase s = stem ++ e ->
  exists stem' ext, s = stem' ++ ext /\ toLowerCase ext = e.
Proof.
  induction stem as [|c stem IH]; simpl; intros s H.
  - now exists "", s.
  - destruct s as [|c' s]; simpl in H; [discriminate|].
    injection H as _ H. destruct (IH s H) as [stem' [ext [-> He]]].
    now exists (String c' stem'), ext.
Qed.

Lemma has_image_extension_ext (u : string) :
  has_image_extension u = true ->
  exists stem ext,
    u = stem ++ ext /\ In (toLowerCase ext) [".jpg"; ".jpeg"; ".png"].
Proof.
  unfold has_image_extension. intros H.
  apply orb_true_iff in H. destruct H as [H|H];
    [apply orb_true_iff in H; destruct H as [H|H]|];
    apply endsWith_suffix in H; destruct H as [stem H];
    apply toLowerCase_suffix in H; destruct H as [stem' [ext [-> He]]];
    exists stem', ext; rewrite He; simpl; auto.
Qed.

Lemma image_urls_extension (ps : list Page) :
  Forall (fun u => has_image_extension u = true) (image_urls ps).
Proof.
  induction ps as [|p ps IH]; simpl; [constructor|].
  destruct (page_url p) as [u|]; [|assumption].
  destruct (has_image_extension u) eqn:E; [now constructor | assumption].
Qed.

(** C9.  When the full-text search answers, then: if it has no top
    result, [fetchWikipediaImages] returns the empty list, having made
    that one request; if it has one and the request for its images
    answers, [fetchWikipediaImages] returns descriptors each of which has
    the alt text made of the top result's title followed by
    [ (Wikipedia)], and a source that ends in [.jpg], [.jpeg] or [.png],
    in any mix of upper and lower case. *)
Theorem fetchWikipediaImages_descriptors
    (query : string) (max : Z) (net : Network) (st : State)
    (data : option SearchBody) :
  net (requests st) (GetWikiSearch query) = inr data ->
  match top_hit data with
  | None =>
      fetchWikipediaImages query max net st =
        (Ok [], {| requests := requests st ++ [GetWikiSearch query];
                   console := console st |})
  | Some top =>
      forall body : option ImagesBody,
        net (requests st ++ [GetWikiSearch query])%list (GetWikiImages (title top))
          = inr body ->
        exists out,
          fetchWikipediaImages query max net st =
            (Ok out,
             {| requests := (requests st ++ [GetWikiSearch query])
                              ++ [GetWikiImages (title top)];
                console := console st |})
          /\ Forall (fun d =>
               alt d = title top ++ " (Wikipedia)"
               /\ exists stem ext,
                    src d = stem ++ ext
                    /\ In (toLowerCase ext) [".jpg"; ".jpeg"; ".png"]) out
  end.
Proof.
  intros Hnet. unfold fetchWikipediaImages, bind, axios_get. rewrite Hnet.
  destruct (top_hit data) as [top|]; [|reflexivity].
  intros body Hbody. cbn [requests console]. rewrite Hbody.
  eexists. split; [reflexivity|].
  apply Forall_map. destruct (slice0_prefix (image_urls (pages_of body)) max) as [k ->].
  apply Forall_forall. intros u Hu. apply firstn_incl in Hu.
  pose proof (image_urls_extension (pages_of body)) as Hall.
  rewrite Forall_forall in Hall. split; [reflexivity|].
  now apply has_image_extension_ext, Hall.
Qed.

Lemma fetchWikipediaImages_descriptors_witness :
  exists out,
    fetchWikipediaImages "Eiffel Tower" 10 Samples.wiki_only_network initial =
      (Ok out,
       {| requests := [GetWikiSearch "Eiffel Tower"; GetWikiImages "Eiffel Tower"];
          console := [] |})
    /\ Forall (fun d =>
         alt d = "Eiffel Tower (Wikipedia)"
         /\ exists stem ext,
              src d = stem ++ ext
              /\ In (toLowerCase ext) [".jpg"; ".jpeg"; ".png"]) out.
Proof.
  apply (@fetchWikipediaImages_descriptors "Eiffel Tower" 10
           Samples.wiki_only_network initial Samples.one_hit eq_refl
           Samples.tower_images eq_refl).
Defined.

(** A search without a result: one request, no descriptor. *)
Example fetchWikipediaImages_no_result :
  fetchWikipediaImages "Nonexistent Place XYZ" 10 Samples.empty_network initial =
    (Ok [], {| requests := [GetWikiSearch "Nonexistent Place XYZ"]; console := [] |}).
Proof. reflexivity. Qed.

(** The sample pages of the article: the [.JPG] and the [.png] are kept,
    the [.svg] and the page without image information are not. *)
Example fetchWikipediaImages_tower :
  fst (fetchWikipediaImages "Eiffel Tower" 10 Samples.wiki_only_network initial) =
    Ok [{| src := "https://upload.wikimedia.org/a/Tour_Eiffel.JPG";
           alt := "Eiffel Tower (Wikipedia)" |};
        {| src := "https://upload.wikimedia.org/a/Paris.png";
           alt := "Eiffel Tower (Wikipedia)" |}].
Proof. reflexivity. Qed.
End WikipediaFacts.

(* ================================================================== *)
(** * The endpoint *)
(* ================================================================== *)

Section EndpointFacts.
Import JsString Server.
Local Open Scope string_scope.

Lemma trimStart_blank (s : string) : blank s = true -> trimStart s = "".
Proof.
  induction s as [|c s IH]; simpl; [reflexivity|].
  intros H. apply andb_true_iff in H. destruct H as [-> H]. now apply IH.
Qed.

Lemma trim_blank (s : string) : blank s = true -> trim s = "".
Proof. intros H. unfold trim. now rewrite trimStart_blank. Qed.

Lemma or_else_some_empty (s : string) : or_else (Some s) "" = s.
Proof. destruct s; reflexivity. Qed.

Lemma respond_blank (unhandled : Error -> M HttpResponse)
    (net : Network) (st : State) :
  respond "" unhandled net st =
    (Ok {| status := 400; json := JsonError "Missing q" |}, st).
Proof. reflexivity. Qed.

(** The scrape leg never throws. *)
Lemma scrape_leg_spec (query : string) (net : Network) (st : State) :
  scrape_leg query net st =
    match fetchTripAdvisorImages query 10 net st with
    | (Ok imgs, st1) => (Ok imgs, st1)
    | (Throw e, st1) => (Ok [], logged st1 e)
    end.
Proof.
  unfold scrape_leg, try_catch.
  destruct (fetchTripAdvisorImages query 10 net st) as [[imgs|e] st1]; reflexivity.
Qed.

Lemma respond_spec (query : string) (unhandled : Error -> M HttpResponse)
    (net : Network) (st : State) :
  falsy query = false ->
  respond query unhandled net st =
    match scrape_leg query net st with
    | (Ok [], st1) =>
        match fetchWikipediaImages query 10 net st1 with
        | (Ok wiki, st2) =>
            (Ok {| status := 200; json := JsonImages wiki (Some "wikipedia") |}, st2)
        | (Throw e, st2) => unhandled e net st2
        end
    | (Ok imgs, st1) => (Ok {| status := 200; json := JsonImages imgs None |}, st1)
    | (Throw e, st1) => unhandled e net st1
    end.
Proof.
  intros H. unfold respond. rewrite H. unfold try_catch at 1. unfold bind at 1.
  destruct (scrape_leg query net st) as [[[|d ds]|e] st1]; try reflexivity.
  unfold bind, ret.
  destruct (fetchWikipediaImages query 10 net st1) as [[wiki|e] st2]; reflexivity.
Qed.

Lemma requests_since_app (st st' : State) (l : list Request) :
  requests st' = (requests st ++ l)%list -> requests_since st st' = l.
Proof.
  intros H. unfold requests_since. rewrite H, skipn_app, skipn_all, Nat.sub_diag.
  reflexivity.
Qed.

(** The scrape source asks for pages only, and writes nothing. *)
Lemma fetchTripAdvisorImages_requests (query : string) (max : Z)
    (net : Network) (st : State) :
  exists pages,
    requests (snd (fetchTripAdvisorImages query max net st))
    = (requests st ++ pages)%list
    /\ existsb is_wiki pages = false
    /\ console (snd (fetchTripAdvisorImages query max net st)) = console st.
Proof.
  unfold fetchTripAdvisorImages, bind, axios_get.
  destruct (net (requests st) _) as [e|doc]; cbn [snd requests console].
  - eexists. repeat split; reflexivity.
  - destruct (placeHref query doc) as [h|]; cbn [ret snd requests console].
    + destruct (net _ _) as [e|doc2]; cbn [snd requests console];
        [|unfold or_throw; destruct (extract_images doc2 max);
          cbn [snd requests console]];
        rewrite <- app_assoc; eexists; repeat split; reflexivity.
    + eexists. repeat split; reflexivity.
Qed.

(** Reading the JSON texts back never fails: what the scrape source
    throws is a failure of one of its two requests. *)
Lemma fetchTripAdvisorImages_throws (query : string) (max : Z)
    (net : Network) (st st1 : State) (e : Error) :
  fetchTripAdvisorImages query max net st = (Throw e, st1) ->
  exists a, e = AxiosFailure a.
Proof.
  unfold fetchTripAdvisorImages, bind, axios_get.
  destruct (net (requests st) _) as [a|doc]; [intros [= <- _]; now exists a|].
  destruct (placeHref query doc) as [h|]; [|discriminate].
  destruct (net _ _) as [a|doc2]; [intros [= <- _]; now exists a|].
  rewrite extract_images_spec. discriminate.
Qed.

(** The encyclopedia source begins with the full-text search. *)
Lemma fetchWikipediaImages_requests (query : string) (max : Z)
    (net : Network) (st : State) :
  exists rest,
    requests (snd (fetchWikipediaImages query max net st))
    = (requests st ++ GetWikiSearch query :: rest)%list.
Proof.
  unfold fetchWikipediaImages, bind, axios_get.
  destruct (net (requests st) _) as [e|data]; cbn [snd requests].
  - now exists [].
  - destruct (top_hit data) as [top|]; cbn [ret snd requests].
    + destruct (net _ _) as [e|body]; cbn [snd requests];
        rewrite <- app_assoc; eexists; reflexivity.
    + now exists [].
Qed.
End EndpointFacts.

Section EndpointClaims.
Import JsString Server.
Local Open Scope string_scope.

(** C7.  For every request whose [q] (from the query string, else from
    the body) is missing, empty or made of white space only, the endpoint
    answers with status 400 and the error body [Missing q], and makes no
    request to any source: the list of requests, and the console, are as
    they were. *)
Theorem handler_rejects_blank_q (req : HttpRequest) (net : Network) (st : State) :
  blank (handler_q req) = true ->
  handler req net st = (Ok {| status := 400; json := JsonError "Missing q" |}, st).
Proof.
  intros H. unfold handler, handler_query.
  rewrite or_else_some_empty, trim_blank by assumption.
  apply respond_blank.
Qed.

Lemma handler_rejects_blank_q_witness :
  handler (Samples.ask "   ") Samples.scrape_network initial =
    (Ok {| status := 400; json := JsonError "Missing q" |}, initial).
Proof.
  apply (@handler_rejects_blank_q (Samples.ask "   ") Samples.scrape_network initial).
  reflexivity.
Defined.

(** The same holds of the route of the local server. *)
Lemma route_rejects_blank_q (req_query : Params) (net : Network) (st : State) :
  blank (or_else (q req_query) "") = true ->
  route req_query net st = (Ok {| status := 400; json := JsonError "Missing q" |}, st).
Proof.
  intros H. unfold route, route_query. rewrite trim_blank by assumption.
  apply respond_blank.
Qed.

(** A request without any [q] is one of them. *)
Example handler_rejects_missing_q :
  handler {| query := None; body := None |} Samples.scrape_network initial =
    (Ok {| status := 400; json := JsonError "Missing q" |}, initial).
Proof. reflexivity. Qed.

(** C3, as stated, fails: when the search page shows no place and
    Wikipedia finds nothing, both sources produce nothing, and the body
    sent has no images and the [fallback] property [wikipedia]; that is
    not [none], nor any of the three values of the claim. *)
Lemma handler_nothing_found_tag :
  exists r,
    fst (handler (Samples.ask "Nonexistent Place XYZ") Samples.empty_network initial)
    = Ok r
    /\ json r = JsonImages [] (Some "wikipedia")
    /\ fallback_of r <> Some "none"
    /\ ~ In (fallback_of r) [Some "scrape"; Some "encyclopedia"; Some "none"].
Proof.
  eexists. split; [reflexivity|]. split; [reflexivity|].
  split; [discriminate|]. simpl. intros [H|[H|[H|[]]]]; discriminate.
Qed.

(** C3, amended.  For every query that is not empty, the encyclopedia
    source is invoked if and only if the scrape leg ends without images
    (a scrape that failed counts as one without images).  When the scrape
    leg has images, the body sent carries them and no [fallback] property.
    When it has none, the body carries what the encyclopedia source
    returned, be it nothing, and the [fallback] property [wikipedia]; if
    the encyclopedia source fails, the answer is the error of status 500.
    So a [fallback] property, when there is one, is [wikipedia]. *)
Theorem handler_fallback_tag (req : HttpRequest) (net : Network) (st : State) :
  falsy (handler_query req) = false ->
  exists imgs st1,
    scrape_leg (handler_query req) net st = (Ok imgs, st1)
    /\ (existsb is_wiki (requests_since st (snd (handler req net st))) = true
        <-> imgs = [])
    /\ (imgs <> [] ->
        handler req net st =
          (Ok {| status := 200; json := JsonImages imgs None |}, st1))
    /\ (imgs = [] ->
        match fetchWikipediaImages (handler_query req) 10 net st1 with
        | (Ok wiki, st2) =>
            handler req net st =
              (Ok {| status := 200; json := JsonImages wiki (Some "wikipedia") |}, st2)
        | (Throw _, st2) =>
            handler req net st =
              (Ok {| status := 500; json := JsonError "Failed to fetch images" |}, st2)
        end)
    /\ (forall r, fst (handler req net st) = Ok r ->
                  fallback_of r = None \/ fallback_of r = Some "wikipedia").
Proof.
  intros Hq. unfold handler. rewrite respond_spec by assumption.
  set (query := handler_query req).
  rewrite scrape_leg_spec.
  destruct (fetchTripAdvisorImages_requests query 10 net st) as [pages [Hp [Hw Hc]]].
  destruct (fetchTripAdvisorImages query 10 net st) as [[imgs|e] st1];
    cbn [snd] in Hp, Hc.
  - exists imgs, st1. split; [reflexivity|].
    destruct imgs as [|d ds].
    + destruct (fetchWikipediaImages_requests query 10 net st1) as [rest Hr].
      destruct (fetchWikipediaImages query 10 net st1) as [[wiki|e] st2];
        cbn [snd fst ret] in *;
        (repeat split; try tauto; try congruence;
         [ intros _;
           rewrite (@requests_since_app st st2 (pages ++ GetWikiSearch query :: rest))
             by (now rewrite Hr, Hp, <- app_assoc);
           rewrite existsb_app; simpl; apply orb_true_r
         | intros r [= <-]; simpl; auto ]).
    + cbn [snd fst]. repeat split; try congruence.
      * rewrite (@requests_since_app st st1 pages Hp). congruence.
      * intros r [= <-]. simpl. auto.
  - exists [], (logged st1 e). split; [reflexivity|].
    destruct (fetchWikipediaImages_requests query 10 net (logged st1 e)) as [rest Hr].
    cbn [logged requests] in Hr.
    destruct (fetchWikipediaImages query 10 net (logged st1 e)) as [[wiki|e2] st2];
      cbn [snd fst ret] in *;
      (repeat split; try tauto; try congruence;
       [ intros _;
         rewrite (@requests_since_app st st2 (pages ++ GetWikiSearch query :: rest))
           by (now rewrite Hr, Hp, <- app_assoc);
         rewrite existsb_app; simpl; apply orb_true_r
       | intros r [= <-]; simpl; auto ]).
Qed.

Lemma handler_fallback_tag_witness :
  exists imgs st1,
    scrape_leg (handler_query (Samples.ask "Eiffel Tower"))
               Samples.wiki_only_network initial = (Ok imgs, st1)
    /\ (existsb is_wiki
          (requests_since initial
             (snd (handler (Samples.ask "Eiffel Tower")
                           Samples.wiki_only_network initial))) = true
        <-> imgs = [])
    /\ (imgs <> [] ->
        handler (Samples.ask "Eiffel Tower") Samples.wiki_only_network initial =
          (Ok {| status := 200; json := JsonImages imgs None |}, st1))
    /\ (imgs = [] ->
        match fetchWikipediaImages (handler_query (Samples.ask "Eiffel Tower")) 10
                Samples.wiki_only_network st1 with
        | (Ok wiki, st2) =>
            handler (Samples.ask "Eiffel Tower") Samples.wiki_only_network initial =
              (Ok {| status := 200; json := JsonImages wiki (Some "wikipedia") |}, st2)
        | (Throw _, st2) =>
            handler (Samples.ask "Eiffel Tower") Samples.wiki_only_network initial =
              (Ok {| status := 500; json := JsonError "Failed to fetch images" |}, st2)
        end)
    /\ (forall r,
          fst (handler (Samples.ask "Eiffel Tower") Samples.wiki_only_network initial)
          = Ok r ->
          fallback_of r = None \/ fallback_of r = Some "wikipedia").
Proof.
  apply (@handler_fallback_tag (Samples.ask "Eiffel Tower")
           Samples.wiki_only_network initial).
  reflexivity.
Defined.

(** The three runs of the samples: a scrape with images, a scrape that is
    refused, and nothing found anywhere. *)
Example handler_scrape_run :
  handler (Samples.ask "Eiffel Tower") Samples.scrape_network initial =
    (Ok {| status := 200;
           json := JsonImages
             [{| src := "https://media-cdn.tripadvisor.com/media/photo-l/01/a.jpg";
                 alt := "Tower" |};
              {| src := "https://dynamic-media-cdn.tripadvisor.com/media/b.jpg";
                 alt := "" |}]
             None |},
     {| requests :=
          [GetPage "https://www.tripadvisor.com/Search?q=Eiffel%20Tower" None;
           GetPage "https://www.tripadvisor.com/Attraction_Review-g187147-d188151"
                   (Some "https://www.tripadvisor.com/Search?q=Eiffel%20Tower")];
        console := [] |}).
Proof. reflexivity. Qed.

Example handler_refused_run :
  handler (Samples.ask "Eiffel Tower") Samples.wiki_only_network initial =
    (Ok {| status := 200;
           json := JsonImages
             [{| src := "https://upload.wikimedia.org/a/Tour_Eiffel.JPG";
                 alt := "Eiffel Tower (Wikipedia)" |};
              {| src := "https://upload.wikimedia.org/a/Paris.png";
                 alt := "Eiffel Tower (Wikipedia)" |}]
             (Some "wikipedia") |},
     {| requests :=
          [GetPage "https://www.tripadvisor.com/Search?q=Eiffel%20Tower" None;
           GetWikiSearch "Eiffel Tower"; GetWikiImages "Eiffel Tower"];
        console := [LogTripAdvisorError (Some 403)] |}).
Proof. reflexivity. Qed.

Example handler_nothing_found_run :
  handler (Samples.ask "Nonexistent Place XYZ") Samples.empty_network initial =
    (Ok {| status := 200; json := JsonImages [] (Some "wikipedia") |},
     {| requests :=
          [GetPage "https://www.tripadvisor.com/Search?q=Nonexistent%20Place%20XYZ" None;
           GetWikiSearch "Nonexistent Place XYZ"];
        console := [] |}).
Proof. reflexivity. Qed.




(** The handler never throws, whatever the network does. *)
Lemma handler_answers (req : HttpRequest) (net : Network) (st : State) :
  exists r st', handler req net st = (Ok r, st').
Proof.
  unfold handler. destruct (falsy (handler_query req)) eqn:Hq.
  - unfold respond. rewrite Hq. now eexists _, _.
  - rewrite respond_spec, scrape_leg_spec by assumption.
    destruct (fetchTripAdvisorImages _ 10 net st) as [[[|d ds]|e] st1];
      try (now eexists _, _);
      destruct (fetchWikipediaImages _ 10 net _) as [[wiki|e2] st2];
      now eexists _, _.
Qed.

(** The route of the local server does the same, with its own message
    and a line on the console. *)
Lemma route_absorbs_scrape_failure
    (req_query : Params) (net : Network) (st st1 : State) (e : Error) :
  falsy (route_query req_query) = false ->
  fetchTripAdvisorImages (route_query req_query) 10 net st = (Throw e, st1) ->
  match fetchWikipediaImages (route_query req_query) 10 net (logged st1 e) with
  | (Ok wiki, st2) =>
      route req_query net st =
        (Ok {| status := 200; json := JsonImages wiki (Some "wikipedia") |}, st2)
  | (Throw e2, st2) =>
      route req_query net st =
        (Ok {| status := 500; json := JsonError "Failed to fetch TripAdvisor images" |},
         {| requests := requests st2;
            console := (console st2 ++ [LogUnhandled e2])%list |})
  end.
Proof.
  intros Hq Hfail. unfold route. rewrite respond_spec by assumption.
  rewrite scrape_leg_spec, Hfail.
  destruct (fetchWikipediaImages (route_query req_query) 10 net (logged st1 e))
    as [[wiki|e2] st2]; reflexivity.
Qed.
End EndpointClaims.

(* ================================================================== *)
(** * Further properties of the curated photo source *)
(* ================================================================== *)

Section PexelsFurther.
Import Pexels.

Lemma select_incl (ps : list Photo) (p : Photo) : In p (select ps) -> In p ps.
Proof.
  unfold select. intros H.
  destruct (5 <=? _).
  - destruct (slice0_prefix (JsArray.sort byAreaDesc (filter isLarge ps)) 5) as [k E].
    rewrite E in H. apply firstn_incl, sort_in, filter_In in H. tauto.
  - destruct (slice0_prefix
                (JsArray.concat (JsArray.sort byAreaDesc (filter isLarge ps))
                   (JsArray.slice0
                      (JsArray.sort byAreaDesc (filter (fun _ => true) ps))
                      (Z.max 5 (Z.of_nat (List.length
                         (JsArray.sort byAreaDesc (filter isLarge ps)))))))
                5) as [k E].
    rewrite E in H. apply firstn_incl in H. unfold JsArray.concat in H.
    apply in_app_or in H. destruct H as [H|H].
    + apply sort_in, filter_In in H. tauto.
    + destruct (slice0_prefix (JsArray.sort byAreaDesc (filter (fun _ => true) ps))
                  (Z.max 5 (Z.of_nat (List.length
                     (JsArray.sort byAreaDesc (filter isLarge ps)))))) as [k' E'].
      rewrite E' in H. apply firstn_incl, sort_in, filter_In in H. tauto.
Qed.

Lemma select_length_le (ps : list Photo) : (List.length (select ps) <= 5)%nat.
Proof.
  unfold select. destruct (5 <=? _); rewrite slice0_nonneg by lia;
    rewrite length_firstn; lia.
Qed.

(** X1.  Whatever the response, a list [searchPhotos] returns has at most
    5 photos, and each of them is a photo of the [photos] list of a
    successful response to the one request made. *)
Theorem searchPhotos_at_most_five_of_response
    (API_KEY : string) fetch (query : string) (out : list Photo) :
  searchPhotos API_KEY fetch query = Returned out ->
  (List.length out <= 5)%nat
  /\ exists response,
       fetch (search_request API_KEY query) = Some response
       /\ ok response = true
       /\ forall p, In p out ->
            exists ps, photos (json response) = Some ps /\ In p ps.
Proof.
  unfold searchPhotos. destruct (String.eqb API_KEY ""); [discriminate|].
  destruct (fetch (search_request API_KEY query)) as [response|]; [|discriminate].
  destruct (ok response) eqn:Hok; simpl; [|discriminate].
  intros [= <-]. split; [apply select_length_le|].
  exists response. repeat split; try assumption.
  intros p Hp. apply select_incl in Hp.
  destruct (photos (json response)) as [ps|]; [now exists ps | destruct Hp].
Qed.

Lemma searchPhotos_at_most_five_of_response_witness :
  (List.length (Pexels.select Samples.six_large) <= 5)%nat
  /\ exists response,
       Some (Samples.respond_with Samples.six_large) = Some response
       /\ ok response = true
       /\ forall p, In p (Pexels.select Samples.six_large) ->
            exists ps, photos (json response) = Some ps /\ In p ps.
Proof.
  apply (@searchPhotos_at_most_five_of_response "key"
           (fun _ => Some (Samples.respond_with Samples.six_large)) "Eiffel Tower").
  reflexivity.
Defined.

(** X2.  When fewer than 5 photos of the response are large, the list
    returned begins with all the large photos, in descending order of
    area, and goes on with a backfill, itself in descending order of area,
    of the photos of largest area of the whole response; its length is the
    lesser of 5 and the number of large photos plus the lesser of 5 and
    the number of photos. *)
Theorem searchPhotos_large_before_backfill
    (API_KEY : string) fetch (query : string) response ps :
  API_KEY <> ""%string ->
  fetch (search_request API_KEY query) = Some response ->
  ok response = true ->
  photos (json response) = Some ps ->
  (List.length (filter isLarge ps) < 5)%nat ->
  Forall exact_area ps ->
  exists large backfill,
    searchPhotos API_KEY fetch query = Returned (large ++ backfill)
    /\ Permutation large (filter isLarge ps)
    /\ StronglySorted (fun a b => area b <= area a) large
    /\ StronglySorted (fun a b => area b <= area a) backfill
    /\ (exists rest,
          Permutation (backfill ++ rest) ps
          /\ Forall (fun p => Forall (fun r => area r <= area p) rest) backfill)
    /\ List.length (large ++ backfill)
       = Nat.min 5 (List.length (filter isLarge ps) + Nat.min 5 (List.length ps)).
Proof.
  intros Hkey Hfetch Hok Hps Hf Hexact.
  set (F := JsArray.sort byAreaDesc (filter isLarge ps)).
  set (S := JsArray.sort byAreaDesc ps).
  assert (HF : List.length F = List.length (filter isLarge ps)) by apply sort_length.
  assert (HS : List.length S = List.length ps) by apply sort_length.
  exists F, (firstn (5 - List.length F) (firstn 5 S)).
  assert (Hsorted : StronglySorted (fun a b => area b <= area a) S)
    by (apply (@sort_sorted _ byAreaDesc area exact_area byAreaDesc_key), Hexact).
  assert (HexactF : Forall exact_area (filter isLarge ps)).
  { apply Forall_forall. intros p Hp. apply filter_In in Hp.
    rewrite Forall_forall in Hexact. now apply Hexact. }
  split; [|split; [|split; [|split; [|split]]]].
  - rewrite (searchPhotos_returns _ _ Hkey Hfetch Hok Hps), select_backfill by assumption.
    fold F S. rewrite firstn_app, (firstn_all2 (n := 5) F) by lia. reflexivity.
  - apply sort_perm.
  - apply (@sort_sorted _ byAreaDesc area exact_area byAreaDesc_key), HexactF.
  - now do 2 apply StronglySorted_firstn.
  - rewrite firstn_firstn.
    exists (skipn (Nat.min (5 - List.length F) 5) S). split.
    + rewrite firstn_skipn. apply sort_perm.
    + rewrite <- (firstn_skipn (Nat.min (5 - List.length F) 5) S) in Hsorted.
      now apply StronglySorted_app_inv in Hsorted.
  - rewrite length_app, !length_firstn. lia.
Qed.

Lemma searchPhotos_large_before_backfill_witness :
  exists large backfill,
    searchPhotos "key" (fun _ => Some (Samples.respond_with Samples.one_large_of_four))
                 "Eiffel Tower" = Returned (large ++ backfill)
    /\ Permutation large (filter isLarge Samples.one_large_of_four)
    /\ StronglySorted (fun a b => area b <= area a) large
    /\ StronglySorted (fun a b => area b <= area a) backfill
    /\ (exists rest,
          Permutation (backfill ++ rest) Samples.one_large_of_four
          /\ Forall (fun p => Forall (fun r => area r <= area p) rest) backfill)
    /\ List.length (large ++ backfill)
       = Nat.min 5 (List.length (filter isLarge Samples.one_large_of_four)
                    + Nat.min 5 (List.length Samples.one_large_of_four)).
Proof.
  apply (@searchPhotos_large_before_backfill "key" _ "Eiffel Tower"
           (Samples.respond_with Samples.one_large_of_four)
           Samples.one_large_of_four);
    [discriminate | reflexivity | reflexivity | reflexivity | simpl; lia |].
  repeat constructor; discriminate.
Defined.

(** X3.  Without an API key [searchPhotos] throws the missing-key error,
    whatever [fetch] would answer.  It returns a list only when the key is
    set, [fetch] resolved and the response is [ok]; the list is then the
    selection on the photos of the body, the empty list when [photos] is no
    array. *)
Theorem searchPhotos_returns_only_after_ok
    (API_KEY : string) fetch (query : string) :
  (API_KEY = ""%string ->
   searchPhotos API_KEY fetch query = Thrown MissingApiKey)
  /\ (forall out,
        searchPhotos API_KEY fetch query = Returned out ->
        API_KEY <> ""%string
        /\ exists response,
             fetch (search_request API_KEY query) = Some response
             /\ ok response = true
             /\ out = select (match photos (json response) with
                              | Some ps => ps
                              | None => []
                              end)).
Proof.
  unfold searchPhotos. split.
  - intros ->. reflexivity.
  - intros out. destruct (String.eqb_spec API_KEY "") as [Hk|Hk]; [discriminate|].
    destruct (fetch (search_request API_KEY query)) as [response|]; [|discriminate].
    destruct (ok response) eqn:Hok; simpl; [|discriminate].
    intros [= <-]. split; [assumption|]. now exists response.
Qed.

(** A body without a [photos] array gives the empty list. *)
Example searchPhotos_no_array :
  searchPhotos "key"
    (fun _ => Some {| ok := true; status := 200; text := "";
                      json := {| photos := None |} |})
    "Eiffel Tower" = Returned [].
Proof. reflexivity. Qed.
End PexelsFurther.

(* ================================================================== *)
(** * Further properties of the scrape source *)
(* ================================================================== *)

Section ScrapeFurther.
Import JsString Server Terms.
Local Open Scope string_scope.

Lemma each_anchor_skip (query : string) (acc : list string) (a : Anchor) :
  anchor_matches query a = false -> each_anchor query acc a = acc.
Proof.
  unfold anchor_matches, each_anchor. intros H.
  destruct (falsy (or_else (href a) "")); [reflexivity|].
  simpl in H. apply orb_false_iff in H. destruct H as [-> ->]. reflexivity.
Qed.

Lemma add_head (acc : list string) (h x : string) :
  exists t, JsSet.add String.eqb (h :: acc) x = h :: t.
Proof.
  unfold JsSet.add. destruct (JsSet.mem String.eqb x (h :: acc)); eexists; reflexivity.
Qed.

Lemma each_anchor_head (query : string) (h : string) (acc : list string) (a : Anchor) :
  exists t, each_anchor query (h :: acc) a = h :: t.
Proof.
  unfold each_anchor. destruct (falsy _); [now eexists|].
  destruct (path_pattern _).
  - destruct (add_head acc h (or_else (href a) "")) as [t ->].
    destruct (includes _ _); [apply add_head | now eexists].
  - destruct (includes _ _); [apply add_head | now eexists].
Qed.

Lemma fold_each_anchor_head (query : string) (l : list Anchor) :
  forall h acc, exists t, fold_left (each_anchor query) l (h :: acc) = h :: t.
Proof.
  induction l as [|a l IH]; intros h acc; simpl; [now eexists|].
  destruct (each_anchor_head query h acc a) as [t ->]. apply IH.
Qed.

Lemma each_anchor_first (query : string) (a : Anchor) :
  anchor_matches query a = true ->
  each_anchor query [] a = [or_else (href a) ""].
Proof.
  unfold anchor_matches, each_anchor. intros H.
  apply andb_true_iff in H. destruct H as [H1 H2].
  apply negb_true_iff in H1. rewrite H1.
  assert (Hadd : JsSet.add String.eqb [or_else (href a) ""] (or_else (href a) "")
                 = [or_else (href a) ""]).
  { unfold JsSet.add, JsSet.mem. simpl. now rewrite String.eqb_refl. }
  destruct (path_pattern _); simpl in H2.
  - unfold JsSet.add at 2. simpl. destruct (includes _ _); [exact Hadd | reflexivity].
  - rewrite H2. reflexivity.
Qed.

(** The anchors split at the first one that matches, if one does. *)
Lemma first_match (query : string) (l : list Anchor) :
  (forall a, In a l -> anchor_matches query a = false)
  \/ exists pre a post,
       l = (pre ++ a :: post)%list
       /\ (forall b, In b pre -> anchor_matches query b = false)
       /\ anchor_matches query a = true.
Proof.
  induction l as [|a l IH]; [left; intros a []|].
  destruct (anchor_matches query a) eqn:E.
  - right. exists [], a, l. repeat split; [intros b []|assumption].
  - destruct IH as [IH|[pre [b [post [-> [Hpre Hb]]]]]].
    + left. intros b [<-|Hb]; auto.
    + right. exists (a :: pre), b, post. repeat split; [|assumption].
      intros c [<-|Hc]; auto.
Qed.

Lemma placeHref_first_match_aux
    (query : string) (doc : Document) (pre post : list Anchor) (a : Anchor) :
  anchors doc = (pre ++ a :: post)%list ->
  (forall b, In b pre -> anchor_matches query b = false) ->
  anchor_matches query a = true ->
  placeHref query doc = Some (or_else (href a) "").
Proof.
  intros Hdoc Hpre Ha. unfold placeHref. rewrite Hdoc, fold_left_app.
  assert (E : fold_left (each_anchor query) pre [] = []).
  { clear Hdoc. induction pre as [|b pre IH]; simpl; [reflexivity|].
    rewrite each_anchor_skip by (apply Hpre; now left).
    apply IH. intros c Hc. apply Hpre. now right. }
  rewrite E. simpl. rewrite each_anchor_first by assumption.
  destruct (fold_each_anchor_head query post (or_else (href a) "") []) as [t ->].
  reflexivity.
Qed.

(** X4.  The place-link resolver takes the first anchor, in document
    order, that has an [href] and matches a heuristic: anchors before it
    that do not match, and all anchors after it, whatever they are, do not
    change the link. *)
Theorem placeHref_first_match
    (query : string) (doc : Document) (pre post : list Anchor) (a : Anchor) :
  anchors doc = (pre ++ a :: post)%list ->
  (forall b, In b pre -> anchor_matches query b = false) ->
  anchor_matches query a = true ->
  placeHref query doc = Some (or_else (href a) "").
Proof. apply placeHref_first_match_aux. Qed.

Lemma placeHref_first_match_witness :
  placeHref "Eiffel Tower" Samples.search_page_with_place
  = Some "/Attraction_Review-g187147-d188151".
Proof.
  apply (@placeHref_first_match "Eiffel Tower" Samples.search_page_with_place
           [{| href := Some "/Hotels"; text := "Hotels" |}] []
           {| href := Some "/Attraction_Review-g187147-d188151";
              text := "Eiffel Tower" |}).
  - reflexivity.
  - intros b [<-|[]]. reflexivity.
  - reflexivity.
Defined.

(** X5.  The link the resolver returns is never empty and is the [href] of
    an anchor of the page that matches a heuristic; and it returns none
    exactly when no anchor of the page matches. *)
Theorem placeHref_sound_complete (query : string) (doc : Document) :
  (forall h, placeHref query doc = Some h ->
     h <> "" /\ exists a, In a (anchors doc)
                          /\ anchor_matches query a = true /\ href a = Some h)
  /\ (placeHref query doc = None
      <-> forall a, In a (anchors doc) -> anchor_matches query a = false).
Proof.
  destruct (first_match query (anchors doc)) as [Hnone|[pre [a [post [Hdoc [Hpre Ha]]]]]].
  - assert (E : placeHref query doc = None).
    { apply placeHref_no_match. intros a Hin Hhref.
      specialize (Hnone a Hin). unfold anchor_matches in Hnone.
      rewrite Hhref in Hnone. simpl in Hnone. now apply orb_false_iff in Hnone. }
    rewrite E. split; [discriminate | tauto].
  - rewrite (placeHref_first_match_aux query doc pre post a Hdoc Hpre Ha).
    split.
    + intros h [= <-].
      pose proof Ha as Ha'. unfold anchor_matches in Ha'.
      apply andb_true_iff in Ha'. destruct Ha' as [Hf _].
      apply negb_true_iff in Hf.
      split; [intros E; rewrite E in Hf; discriminate|].
      exists a. split; [rewrite Hdoc; apply in_or_app; right; now left|].
      split; [assumption|].
      destruct (href a) as [h|]; simpl in *; [|discriminate].
      destruct h; [discriminate | reflexivity].
    + split; [discriminate|]. intros H.
      rewrite H in Ha; [discriminate|]. rewrite Hdoc. apply in_or_app. right. now left.
Qed.

(** X6.  When the search page arrives and has a place link, the second
    request goes to that link, put after [https://www.tripadvisor.com]
    unless it starts with [http], and carries the URL of the search as its
    [Referer]; when the detail page arrives too, [fetchTripAdvisorImages]
    returns what the extractor makes of it, after exactly these two
    requests. *)
Theorem fetchTripAdvisorImages_two_steps
    (query : string) (max : Z) (net : Network) (st : State)
    (page detail : Document) (h : string) :
  net (requests st) (GetPage (buildTripAdvisorSearchUrl query) None) = inr page ->
  placeHref query page = Some h ->
  net (requests st ++ [GetPage (buildTripAdvisorSearchUrl query) None])%list
      (GetPage (placeUrl h) (Some (buildTripAdvisorSearchUrl query))) = inr detail ->
  exists out,
    extract_images detail max = Some out
    /\ fetchTripAdvisorImages query max net st =
         (Ok out,
          {| requests :=
               (requests st ++ [GetPage (buildTripAdvisorSearchUrl query) None])
               ++ [GetPage (placeUrl h) (Some (buildTripAdvisorSearchUrl query))];
             console := console st |}).
Proof.
  intros Hpage Hh Hdetail. eexists. split; [apply extract_images_spec|].
  unfold fetchTripAdvisorImages, bind, axios_get. rewrite Hpage, Hh.
  cbn [requests console]. fold (placeUrl h). rewrite Hdetail.
  unfold or_throw. rewrite extract_images_spec. reflexivity.
Qed.

Lemma fetchTripAdvisorImages_two_steps_witness :
  exists out,
    extract_images Samples.detail_page 10 = Some out
    /\ fetchTripAdvisorImages "Eiffel Tower" 10 Samples.scrape_network initial =
         (Ok out,
          {| requests :=
               [GetPage (buildTripAdvisorSearchUrl "Eiffel Tower") None;
                GetPage (placeUrl "/Attraction_Review-g187147-d188151")
                        (Some (buildTripAdvisorSearchUrl "Eiffel Tower"))];
             console := [] |}).
Proof.
  apply (@fetchTripAdvisorImages_two_steps "Eiffel Tower" 10 Samples.scrape_network
           initial Samples.search_page_with_place Samples.detail_page
           "/Attraction_Review-g187147-d188151"); reflexivity.
Defined.

(** X7.  For every query whose code units are below 256, so that
    [encodeURIComponent] does not throw, and whatever the network does,
    [fetchTripAdvisorImages] makes one request or two: first the search
    page, without [Referer]; then, if at all, a page with the search URL as
    [Referer].  It asks Wikipedia
    nothing, writes nothing to the console, and what it throws, if it
    throws, is the failure of the last request it made. *)
Theorem fetchTripAdvisorImages_trace
    (query : string) (max : Z) (net : Network) (st : State) :
  exists more,
    requests (snd (fetchTripAdvisorImages query max net st))
    = (requests st ++ GetPage (buildTripAdvisorSearchUrl query) None :: more)%list
    /\ (more = []
        \/ exists u, more = [GetPage u (Some (buildTripAdvisorSearchUrl query))])
    /\ console (snd (fetchTripAdvisorImages query max net st)) = console st
    /\ (forall e, fst (fetchTripAdvisorImages query max net st) = Throw e ->
          exists a r,
            e = AxiosFailure a
            /\ last (GetPage (buildTripAdvisorSearchUrl query) None :: more) r = r
            /\ net (removelast (requests (snd (fetchTripAdvisorImages query max net st))))
                   r = inl a).
Proof.
  unfold fetchTripAdvisorImages, bind, axios_get.
  destruct (net (requests st) (GetPage (buildTripAdvisorSearchUrl query) None))
    as [a|page] eqn:E1; cbn [fst snd requests console].
  - exists []. repeat split; [now left|].
    intros e [= <-]. exists a, (GetPage (buildTripAdvisorSearchUrl query) None).
    rewrite removelast_last. auto.
  - destruct (placeHref query page) as [h|]; cbn [ret fst snd requests console].
    + destruct (net _ (GetPage _ (Some _))) as [a|detail] eqn:E2;
        cbn [fst snd requests console].
      * eexists [_]. rewrite <- app_assoc. repeat split; [right; now eexists|].
        intros e [= <-]. eexists a, _. split; [reflexivity|]. split; [reflexivity|].
        rewrite app_assoc, removelast_last. exact E2.
      * unfold or_throw. rewrite extract_images_spec. cbn [fst snd requests console].
        eexists [_]. rewrite <- app_assoc. repeat split; [right; now eexists|].
        discriminate.
    + exists []. repeat split; [now left | discriminate].
Qed.

(** X27.  Whatever characters the sources and alt texts of a page hold,
    quotes, backslashes and control characters among them, and whatever the
    cap, reading the JSON texts back never fails, and every descriptor
    returned is, unaltered, a descriptor that an image of the page yields. *)
Theorem extract_images_never_fails (doc : Document) (max : Z) :
  exists out,
    extract_images doc max = Some out
    /\ forall d, In d out -> In d (emitted doc).
Proof.
  destruct (extract_images_prefix doc max) as [k E].
  eexists. split; [exact E|].
  intros d Hd. apply firstn_incl in Hd.
  apply (fold_add_In _ Descriptor_eqb_eq) in Hd. simpl in Hd. tauto.
Qed.

(** A descriptor whose alt text is a quote, a backslash, a line feed and
    the character of code 1 comes back as it went. *)
Example JSON_round_trip_escapes :
  JSON_parse
    (JSON_stringify
       {| src := "a.jpg";
          alt := String Json.dquote (String Json.backslash
                   (String (ascii_of_N 10) (String (ascii_of_N 1) ""))) |})
  = Some {| src := "a.jpg";
            alt := String Json.dquote (String Json.backslash
                     (String (ascii_of_N 10) (String (ascii_of_N 1) ""))) |}.
Proof. reflexivity. Qed.

(** X8.  The test [accept] makes is one test: a source passes exactly when
    the text [media-cdn.tripadvisor.com] occurs in it.  The second
    alternative of the pattern, for the [dynamic-] domain, lets through
    nothing that the first does not. *)
Theorem accept_one_test (src : string) :
  accept src = includes src "media-cdn.tripadvisor.com".
Proof.
  destruct (accept src) eqn:E.
  - symmetry. now apply accept_includes.
  - unfold accept in E. apply orb_false_iff in E. now destruct E as [-> _].
Qed.

Lemma replace_first_absent (p r s : string) :
  includes s p = false -> replace_first p r s = s.
Proof.
  induction s as [|c s IH]; rewrite includes_unfold; intros H;
    apply orb_false_iff in H; destruct H as [H1 H2]; unfold startsWith in H1;
    cbn [replace_first].
  - destruct (strip_prefix p ""); [discriminate | reflexivity].
  - destruct (strip_prefix p (String c s)); [discriminate|]. now rewrite IH.
Qed.

Lemma replace_size_directive_absent (s : string) :
  includes s "/-w" = false -> replace_size_directive s = s.
Proof.
  induction s as [|c s IH]; [reflexivity|].
  rewrite includes_unfold. intros H. apply orb_false_iff in H. destruct H as [H1 H2].
  cbn [replace_size_directive]. unfold match_size_directive, and_then.
  unfold startsWith in H1.
  destruct (strip_prefix "/-w" (String c s)); [discriminate|]. now rewrite IH.
Qed.

(** X9.  A source in which neither [photo-s/] nor [/-w] occurs goes
    through the normalization unchanged. *)
Theorem normalize_unchanged (src : string) :
  includes src "photo-s/" = false ->
  includes src "/-w" = false ->
  normalize src = src.
Proof.
  intros H1 H2. unfold normalize. rewrite replace_first_absent by assumption.
  now apply replace_size_directive_absent.
Qed.

Lemma normalize_unchanged_witness :
  normalize "https://dynamic-media-cdn.tripadvisor.com/media/b.jpg"
  = "https://dynamic-media-cdn.tripadvisor.com/media/b.jpg".
Proof.
  apply (@normalize_unchanged "https://dynamic-media-cdn.tripadvisor.com/media/b.jpg");
    reflexivity.
Defined.

Lemma encode_char_safe (c : ascii) :
  forallb uri_safe
    (chars (if uri_unreserved c then String c ""
            else if (N_of_ascii c <? 128)%N then percent (N_of_ascii c)
            else percent (192 + N_of_ascii c / 64)
                 ++ percent (128 + N_of_ascii c mod 64))) = true.
Proof. destruct c as [[] [] [] [] [] [] [] []]; reflexivity. Qed.

(** X10.  The query part of the search URL is made of unreserved
    characters and percent signs only: whatever the query is, it brings no
    space, ampersand, hash, slash or question mark into the URL, which is
    the fixed address followed by that part. *)
Theorem buildTripAdvisorSearchUrl_safe (query : string) :
  exists part,
    buildTripAdvisorSearchUrl query = "https://www.tripadvisor.com/Search?q=" ++ part
    /\ Forall (fun c => uri_safe c = true) (chars part)
    /\ Forall (fun c => ~ In c (chars " &#/?")) (chars part).
Proof.
  exists (encodeURIComponent query). split; [reflexivity|].
  assert (H : Forall (fun c => uri_safe c = true) (chars (encodeURIComponent query))).
  { induction query as [|c s IH]; [constructor|].
    cbn [encodeURIComponent]. rewrite chars_app. apply Forall_app. split; [|exact IH].
    apply Forall_forall. apply forallb_forall. apply encode_char_safe. }
  split; [exact H|].
  eapply Forall_impl; [|exact H]. intros c Hc Hin.
  simpl in Hin.
  repeat (destruct Hin as [<-|Hin]; [discriminate Hc|]). exact Hin.
Qed.
End ScrapeFurther.

(* ================================================================== *)
(** * Further properties of the encyclopedia source *)
(* ================================================================== *)

Section WikipediaFurther.
Import JsString Server Terms.
Local Open Scope string_scope.

Lemma endsWith_app (stem p : string) : endsWith (stem ++ p) p = true.
Proof.
  induction stem as [|c stem IH]; simpl append.
  - destruct p; cbn [endsWith]; now rewrite String.eqb_refl.
  - cbn [endsWith]. rewrite IH. apply orb_true_r.
Qed.

Lemma toLowerCase_app (s u : string) :
  toLowerCase (s ++ u) = toLowerCase s ++ toLowerCase u.
Proof. induction s; simpl; congruence. Qed.

(** X11.  The extension test holds of a URL exactly when the URL ends in
    [.jpg], [.jpeg] or [.png], in any mix of upper and lower case; what
    stands before that ending plays no part. *)
Theorem has_image_extension_iff (u : string) :
  has_image_extension u = true
  <-> exists stem ext,
        u = stem ++ ext /\ In (toLowerCase ext) [".jpg"; ".jpeg"; ".png"].
Proof.
  split; [apply has_image_extension_ext|].
  intros [stem [ext [-> H]]]. unfold has_image_extension.
  rewrite toLowerCase_app.
  destruct H as [<-|[<-|[<-|[]]]]; rewrite endsWith_app;
    rewrite ?orb_true_r; reflexivity.
Qed.

Lemma image_urls_In (ps : list Page) (u : string) :
  In u (image_urls ps)
  <-> u <> "" /\ has_image_extension u = true
      /\ exists p, In p ps /\ first_url p = Some u.
Proof.
  induction ps as [|p ps IH]; simpl.
  - split; [tauto | intros [_ [_ [p [[] _]]]]].
  - assert (Hp : page_url p = match first_url p with
                              | Some v => if falsy v then None else Some v
                              | None => None end).
    { unfold page_url, first_url. destruct (imageinfo p) as [[|i l]|]; reflexivity. }
    rewrite Hp. split.
    + destruct (first_url p) as [v|] eqn:E.
      * destruct (falsy v) eqn:Fv.
        -- intros H. apply IH in H. destruct H as [H1 [H2 [p' [H3 H4]]]].
           repeat split; try assumption. exists p'. auto.
        -- destruct (has_image_extension v) eqn:Ev.
           ++ intros [<-|H].
              ** repeat split; [intros ->; discriminate | assumption|].
                 exists p. auto.
              ** apply IH in H. destruct H as [H1 [H2 [p' [H3 H4]]]].
                 repeat split; try assumption. exists p'. auto.
           ++ intros H. apply IH in H. destruct H as [H1 [H2 [p' [H3 H4]]]].
              repeat split; try assumption. exists p'. auto.
      * intros H. apply IH in H. destruct H as [H1 [H2 [p' [H3 H4]]]].
        repeat split; try assumption. exists p'. auto.
    + intros [H1 [H2 [p' [[<-|H3] H4]]]].
      * rewrite H4. destruct u; [contradiction|]. simpl. rewrite H2. now left.
      * assert (In u (image_urls ps)) by (apply IH; eauto).
        destruct (first_url p) as [v|]; [|assumption].
        destruct (falsy v); [assumption|].
        destruct (has_image_extension v); [now right | assumption].
Qed.

(** X12.  When both requests to Wikipedia are answered and the cap [max]
    is not negative, [fetchWikipediaImages] returns at most [max]
    descriptors; the source of each is the URL of the first image
    information of a page of the answer; and a page whose first URL is not
    empty and passes the extension test is left out only when the cap is
    reached. *)
Theorem fetchWikipediaImages_capped
    (query : string) (max : Z) (net : Network) (st : State)
    (data : option SearchBody) (top : SearchHit) (body : option ImagesBody) :
  0 <= max ->
  net (requests st) (GetWikiSearch query) = inr data ->
  top_hit data = Some top ->
  net (requests st ++ [GetWikiSearch query])%list (GetWikiImages (title top))
    = inr body ->
  exists out,
    fst (fetchWikipediaImages query max net st) = Ok out
    /\ Z.of_nat (List.length out) <= max
    /\ (forall d, In d out ->
          exists p, In p (pages_of body) /\ first_url p = Some (src d))
    /\ (forall p u, In p (pages_of body) -> first_url p = Some u ->
          u <> "" -> has_image_extension u = true ->
          (exists d, In d out /\ src d = u)
          \/ Z.of_nat (List.length out) = max).
Proof.
  intros Hmax Hsearch Htop Himgs.
  unfold fetchWikipediaImages, bind, axios_get. rewrite Hsearch, Htop.
  cbn [requests console]. rewrite Himgs. cbn [ret fst].
  eexists. split; [reflexivity|].
  rewrite slice0_nonneg by assumption.
  set (urls := image_urls (pages_of body)).
  rewrite length_map, length_firstn. split; [lia|]. split.
  - intros d Hd. apply in_map_iff in Hd. destruct Hd as [u [<- Hu]].
    apply firstn_incl in Hu. apply image_urls_In in Hu. simpl. tauto.
  - intros p u Hp Hu Hne Hext.
    assert (Hin : In u urls) by (apply image_urls_In; eauto).
    destruct (Nat.le_gt_cases (List.length urls) (Z.to_nat max)) as [Hle|Hgt].
    + left. eexists. split; [apply in_map; rewrite firstn_all2; eassumption|].
      reflexivity.
    + right. lia.
Qed.

Lemma fetchWikipediaImages_capped_witness :
  exists out,
    fst (fetchWikipediaImages "Eiffel Tower" 1 Samples.wiki_only_network initial)
    = Ok out
    /\ Z.of_nat (List.length out) <= 1
    /\ (forall d, In d out ->
          exists p, In p (pages_of Samples.tower_images)
                    /\ first_url p = Some (src d))
    /\ (forall p u, In p (pages_of Samples.tower_images) -> first_url p = Some u ->
          u <> "" -> has_image_extension u = true ->
          (exists d, In d out /\ src d = u)
          \/ Z.of_nat (List.length out) = 1).
Proof.
  apply (@fetchWikipediaImages_capped "Eiffel Tower" 1 Samples.wiki_only_network
           initial Samples.one_hit {| title := "Eiffel Tower" |} Samples.tower_images);
    [lia | reflexivity | reflexivity | reflexivity].
Defined.

End WikipediaFurther.

(* ================================================================== *)
(** * Further properties of the endpoint *)
(* ================================================================== *)

Section EndpointFurther.
Import JsString Server Terms.
Local Open Scope string_scope.

Lemma trimStart_nonblank (s : string) :
  blank s = false ->
  exists c s', trimStart s = String c s' /\ is_space c = false.
Proof.
  induction s as [|c s IH]; simpl; [discriminate|].
  destruct (is_space c) eqn:E; simpl.
  - exact IH.
  - intros _. now exists c, s.
Qed.

Lemma trim_nonblank (s : string) : blank s = false -> falsy (trim s) = false.
Proof.
  intros H. destruct (trimStart_nonblank s H) as [c [s' [E Hc]]].
  unfold trim. rewrite E. cbn [trimEnd]. rewrite Hc.
  destruct (trimEnd s'); reflexivity.
Qed.

Lemma fetchTripAdvisorImages_length (query : string) (max : Z)
    (net : Network) (st st1 : State) (out : list Descriptor) :
  0 <= max ->
  fetchTripAdvisorImages query max net st = (Ok out, st1) ->
  Z.of_nat (List.length out) <= max.
Proof.
  intros Hmax. unfold fetchTripAdvisorImages, bind, axios_get.
  destruct (net (requests st) _) as [a|page]; [discriminate|].
  destruct (placeHref query page) as [h|].
  - destruct (net _ _) as [a|detail]; [discriminate|].
    unfold or_throw. rewrite extract_images_spec, slice0_nonneg by assumption.
    intros [= <- _]. rewrite length_firstn. lia.
  - intros [= <- _]. simpl. lia.
Qed.

Lemma fetchWikipediaImages_length (query : string) (max : Z)
    (net : Network) (st st1 : State) (out : list Descriptor) :
  0 <= max ->
  fetchWikipediaImages query max net st = (Ok out, st1) ->
  Z.of_nat (List.length out) <= max.
Proof.
  intros Hmax. unfold fetchWikipediaImages, bind, axios_get.
  destruct (net (requests st) _) as [a|data]; [discriminate|].
  destruct (top_hit data) as [top|].
  - destruct (net _ _) as [a|body]; [discriminate|].
    intros [= <- _]. rewrite length_map, slice0_nonneg, length_firstn by assumption. lia.
  - intros [= <- _]. simpl. lia.
Qed.

Lemma fetchTripAdvisorImages_requests_le (query : string) (max : Z)
    (net : Network) (st : State) :
  exists pages,
    requests (snd (fetchTripAdvisorImages query max net st))
    = (requests st ++ pages)%list
    /\ (List.length pages <= 2)%nat
    /\ existsb is_wiki pages = false
    /\ console (snd (fetchTripAdvisorImages query max net st)) = console st.
Proof.
  unfold fetchTripAdvisorImages, bind, axios_get.
  destruct (net (requests st) _) as [e|doc]; cbn [snd requests console].
  - eexists [_]. repeat split; simpl; lia.
  - destruct (placeHref query doc) as [h|]; cbn [ret snd requests console].
    + destruct (net _ _) as [e|doc2]; cbn [snd requests console];
        [|unfold or_throw; destruct (extract_images doc2 max);
          cbn [snd requests console]];
        rewrite <- app_assoc; eexists [_; _]; repeat split; simpl; lia.
    + eexists [_]. repeat split; simpl; lia.
Qed.

Lemma fetchWikipediaImages_requests_le (query : string) (max : Z)
    (net : Network) (st : State) :
  exists asked,
    requests (snd (fetchWikipediaImages query max net st))
    = (requests st ++ asked)%list
    /\ (List.length asked <= 2)%nat
    /\ forallb is_wiki asked = true
    /\ console (snd (fetchWikipediaImages query max net st)) = console st.
Proof.
  unfold fetchWikipediaImages, bind, axios_get.
  destruct (net (requests st) _) as [e|data]; cbn [snd requests console].
  - eexists [_]. repeat split; simpl; lia.
  - destruct (top_hit data) as [top|]; cbn [ret snd requests console].
    + destruct (net _ _) as [e|body]; cbn [snd requests console];
        rewrite <- app_assoc; eexists [_; _]; repeat split; simpl; lia.
    + eexists [_]. repeat split; simpl; lia.
Qed.


(** The outcome of the handler, by cases on the two legs. *)
Lemma handler_cases (req : HttpRequest) (net : Network) (st : State) :
  falsy (handler_query req) = false ->
  exists imgs st1,
    scrape_leg (handler_query req) net st = (Ok imgs, st1)
    /\ Z.of_nat (List.length imgs) <= 10
    /\ (exists pages,
          requests st1 = (requests st ++ pages)%list
          /\ (List.length pages <= 2)%nat /\ existsb is_wiki pages = false)
    /\ (console st1 = console st
        \/ exists l, console st1 = (console st ++ [l])%list)
    /\ ((imgs <> []
         /\ handler req net st =
              (Ok {| status := 200; json := JsonImages imgs None |}, st1))
        \/ (imgs = []
            /\ exists wiki st2,
                 fetchWikipediaImages (handler_query req) 10 net st1 = (Ok wiki, st2)
                 /\ handler req net st =
                      (Ok {| status := 200;
                             json := JsonImages wiki (Some "wikipedia") |}, st2))
        \/ (imgs = []
            /\ exists e st2,
                 fetchWikipediaImages (handler_query req) 10 net st1 = (Throw e, st2)
                 /\ handler req net st =
                      (Ok {| status := 500;
                             json := JsonError "Failed to fetch images" |}, st2))).
Proof.
  intros Hq. unfold handler. rewrite respond_spec by assumption.
  set (query := handler_query req).
  rewrite scrape_leg_spec.
  destruct (fetchTripAdvisorImages_requests_le query 10 net st)
    as [pages [Hp [Hl [Hw Hc]]]].
  pose proof (@fetchTripAdvisorImages_length query 10 net st) as Hlen.
  destruct (fetchTripAdvisorImages query 10 net st) as [[imgs|e] st1];
    cbn [snd] in Hp, Hc.
  - exists imgs, st1. split; [reflexivity|].
    split; [apply (Hlen st1 imgs); [lia | reflexivity]|].
    split; [now exists pages|]. split; [now left|].
    destruct imgs as [|d ds].
    + right. destruct (fetchWikipediaImages query 10 net st1) as [[wiki|e] st2].
      * left. split; [reflexivity|]. now exists wiki, st2.
      * right. split; [reflexivity|]. now exists e, st2.
    + left. split; [discriminate | reflexivity].
  - exists [], (logged st1 e). split; [reflexivity|].
    split; [simpl; lia|]. split; [now exists pages|].
    split; [right; eexists; cbn [logged console]; now rewrite Hc|].
    right. destruct (fetchWikipediaImages query 10 net (logged st1 e)) as [[wiki|e2] st2].
    + left. split; [reflexivity|]. now exists wiki, st2.
    + right. split; [reflexivity|]. now exists e2, st2.
Qed.

(** X14.  The handler always answers and never throws, whatever the
    request and the network.  The status is 400, 200 or 500; it is 400
    exactly when the [q] it reads is missing, empty or white space only;
    and the body carries images exactly when the status is 200. *)
Theorem handler_status (req : HttpRequest) (net : Network) (st : State) :
  exists r st',
    handler req net st = (Ok r, st')
    /\ (status r = 400 \/ status r = 200 \/ status r = 500)
    /\ (status r = 400 <-> blank (handler_q req) = true)
    /\ (status r = 200 <-> exists images tag, json r = JsonImages images tag).
Proof.
  destruct (blank (handler_q req)) eqn:Hb.
  - unfold handler, handler_query.
    rewrite or_else_some_empty, trim_blank by assumption.
    eexists _, _. split; [apply respond_blank|]. simpl.
    repeat split; auto; try discriminate. intros [i [t H]]. discriminate.
  - assert (Hq : falsy (handler_query req) = false).
    { unfold handler_query. rewrite or_else_some_empty. now apply trim_nonblank. }
    destruct (handler_cases req net st Hq)
      as [imgs [st1 [_ [_ [_ [_ [[_ H]|[[_ [w [st2 [_ H]]]]|[_ [e [st2 [_ H]]]]]]]]]]]];
      rewrite H; eexists _, _; (split; [reflexivity|]); simpl;
      repeat split; auto; try discriminate; try (now eexists _, _);
      intros [i [t E]]; discriminate.
Qed.

(** X15.  A body of images the handler sends has at most 10 of them,
    whichever source they come from. *)
Theorem handler_at_most_ten_images
    (req : HttpRequest) (net : Network) (st st' : State) (r : HttpResponse)
    (images : list Descriptor) (tag : option string) :
  handler req net st = (Ok r, st') ->
  json r = JsonImages images tag ->
  (List.length images <= 10)%nat.
Proof.
  destruct (falsy (handler_query req)) eqn:Hq.
  - unfold handler, respond. rewrite Hq. intros [= <- _]. discriminate.
  - destruct (handler_cases req net st Hq)
      as [imgs [st1 [_ [Hlen [_ [_ [[_ H]|[[_ [w [st2 [Hw H]]]]|[_ [e [st2 [_ H]]]]]]]]]]]];
      rewrite H; intros [= <- _]; simpl; intros [= <- _]; try lia.
    apply fetchWikipediaImages_length in Hw; lia.
Qed.

Lemma handler_at_most_ten_images_witness :
  (List.length
     [{| src := "https://upload.wikimedia.org/a/Tour_Eiffel.JPG";
         alt := "Eiffel Tower (Wikipedia)" |};
      {| src := "https://upload.wikimedia.org/a/Paris.png";
         alt := "Eiffel Tower (Wikipedia)" |}] <= 10)%nat.
Proof.
  eapply (@handler_at_most_ten_images (Samples.ask "Eiffel Tower")
            Samples.wiki_only_network initial); reflexivity.
Defined.

(** X16.  Answering one request the handler makes at most 4 requests of
    its own: at most 2 for pages of TripAdvisor, and after them at most 2
    to Wikipedia; and it writes at most one line to the console. *)
Theorem handler_at_most_four_requests
    (req : HttpRequest) (net : Network) (st : State) :
  exists pages asked,
    requests (snd (handler req net st)) = (requests st ++ pages ++ asked)%list
    /\ (List.length pages <= 2)%nat /\ existsb is_wiki pages = false
    /\ (List.length asked <= 2)%nat /\ forallb is_wiki asked = true
    /\ (console (snd (handler req net st)) = console st
        \/ exists l, console (snd (handler req net st)) = (console st ++ [l])%list).
Proof.
  destruct (falsy (handler_query req)) eqn:Hq.
  - unfold handler, respond. rewrite Hq. exists [], []. simpl.
    rewrite app_nil_r. repeat split; auto.
  - destruct (handler_cases req net st Hq)
      as [imgs [st1 [_ [_ [[pages [Hp [Hl Hnw]]] [Hc
           [[_ H]|[[_ [w [st2 [Hw H]]]]|[_ [e [st2 [Hw H]]]]]]]]]]]];
      rewrite H; cbn [snd].
    + exists pages, []. rewrite app_nil_r. repeat split; auto.
    + destruct (fetchWikipediaImages_requests_le (handler_query req) 10 net st1)
        as [asked [Ha [Hal [Haw Hac]]]].
      rewrite Hw in Ha, Hac. cbn [snd] in Ha, Hac.
      exists pages, asked. rewrite Ha, Hp, Hac, <- app_assoc. repeat split; auto.
    + destruct (fetchWikipediaImages_requests_le (handler_query req) 10 net st1)
        as [asked [Ha [Hal [Haw Hac]]]].
      rewrite Hw in Ha, Hac. cbn [snd] in Ha, Hac.
      exists pages, asked. rewrite Ha, Hp, Hac, <- app_assoc. repeat split; auto.
Qed.



(** The route and the handler, side by side. *)
Lemma route_handler_cases
    (req_query : Params) (net : Network) (st st' : State) (r : HttpResponse) :
  handler {| query := Some req_query; body := None |} net st = (Ok r, st') ->
  (status r <> 500 -> route req_query net st = (Ok r, st'))
  /\ (status r = 500 ->
      exists e,
        route req_query net st =
          (Ok {| status := 500; json := JsonError "Failed to fetch TripAdvisor images" |},
           {| requests := requests st';
              console := (console st' ++ [LogUnhandled e])%list |})).
Proof.
  assert (Eq : handler_query {| query := Some req_query; body := None |}
               = route_query req_query).
  { unfold handler_query, handler_q, route_query.
    rewrite or_else_some_empty. reflexivity. }
  unfold handler, route. rewrite Eq.
  destruct (falsy (route_query req_query)) eqn:Hq.
  - unfold respond. rewrite Hq. intros [= <- <-]. split; [reflexivity | discriminate].
  - rewrite !respond_spec by assumption.
    destruct (scrape_leg (route_query req_query) net st) as [[[|d ds]|e] st1].
    + destruct (fetchWikipediaImages (route_query req_query) 10 net st1)
        as [[wiki|e] st2]; intros [= <- <-]; simpl.
      * split; [reflexivity | discriminate].
      * split; [congruence|]. intros _. now exists e.
    + intros [= <- <-]. split; [reflexivity | discriminate].
    + intros [= <- <-]. split; [simpl; congruence|]. intros _. now exists e.
Qed.

(** X18.  The route of the local server and the handler of the serverless
    function answer a request alike, with the same requests and the same
    console, whenever the handler's answer is not the status 500. *)
Theorem route_agrees_with_handler
    (req_query : Params) (net : Network) (st st' : State) (r : HttpResponse) :
  handler {| query := Some req_query; body := None |} net st = (Ok r, st') ->
  status r <> 500 ->
  route req_query net st = (Ok r, st').
Proof. intros H. now apply route_handler_cases. Qed.

Lemma route_agrees_with_handler_witness :
  route {| q := Some "Eiffel Tower" |} Samples.wiki_only_network initial =
    (Ok {| status := 200;
           json := JsonImages
             [{| src := "https://upload.wikimedia.org/a/Tour_Eiffel.JPG";
                 alt := "Eiffel Tower (Wikipedia)" |};
              {| src := "https://upload.wikimedia.org/a/Paris.png";
                 alt := "Eiffel Tower (Wikipedia)" |}]
             (Some "wikipedia") |},
     {| requests :=
          [GetPage "https://www.tripadvisor.com/Search?q=Eiffel%20Tower" None;
           GetWikiSearch "Eiffel Tower"; GetWikiImages "Eiffel Tower"];
        console := [LogTripAdvisorError (Some 403)] |}).
Proof.
  apply (@route_agrees_with_handler {| q := Some "Eiffel Tower" |}
           Samples.wiki_only_network initial);
    [reflexivity | discriminate].
Defined.

(** X19.  When the handler answers with status 500, the route answers
    with status 500 too, after the same requests; its error message is its
    own, and it writes the error as one more line to the console. *)
Theorem route_500_with_handler
    (req_query : Params) (net : Network) (st st' : State) (r : HttpResponse) :
  handler {| query := Some req_query; body := None |} net st = (Ok r, st') ->
  status r = 500 ->
  exists e,
    route req_query net st =
      (Ok {| status := 500; json := JsonError "Failed to fetch TripAdvisor images" |},
       {| requests := requests st';
          console := (console st' ++ [LogUnhandled e])%list |}).
Proof. intros H. now apply route_handler_cases. Qed.

Lemma route_500_with_handler_witness :
  exists e,
    route {| q := Some "Eiffel Tower" |} Samples.wiki_down_network initial =
      (Ok {| status := 500; json := JsonError "Failed to fetch TripAdvisor images" |},
       {| requests :=
            [GetPage "https://www.tripadvisor.com/Search?q=Eiffel%20Tower" None;
             GetWikiSearch "Eiffel Tower"];
          console := ([] ++ [LogUnhandled e])%list |}).
Proof.
  apply (@route_500_with_handler {| q := Some "Eiffel Tower" |}
           Samples.wiki_down_network initial
           {| requests :=
                [GetPage "https://www.tripadvisor.com/Search?q=Eiffel%20Tower" None;
                 GetWikiSearch "Eiffel Tower"];
              console := [] |}
           {| status := 500; json := JsonError "Failed to fetch images" |});
    reflexivity.
Defined.
End EndpointFurther.

(* ================================================================== *)
(** * Properties of the browser script *)
(* ================================================================== *)

Section ClientFacts.
Import JsString Client.
Local Open Scope string_scope.

Variable API_KEY : string.
Variable fetch : Pexels.Request -> option Pexels.Response.
Variable rejection : string.

(** X20.  A search for a text that is empty or white space only leaves
    the page as it was: the status line, the results and the TripAdvisor
    container keep what they held, and no placeholder is shown, whatever
    the API key is and whatever [fetch] and the endpoint would answer. *)
Theorem handleSearch_blank
    (endpoint : string -> option EndpointResponse) (query : string) (els : Elements) :
  Server.blank query = true ->
  handleSearch API_KEY fetch endpoint rejection query els = els.
Proof.
  intros H. unfold handleSearch.
  now rewrite or_else_some_empty, trim_blank.
Qed.

(** X21.  When [searchPhotos] throws, the results are what the browser
    makes of the markup of a [div] of class [empty] around the message of
    the error, put there unescaped, or around [Something went wrong.] if
    the message is empty: markup in the message is read as markup.  The
    status line, if there is one, is empty; and the TripAdvisor container,
    if there is one, is empty too, whatever the endpoint answered. *)
Theorem handleSearch_error
    (endpoint : string -> option EndpointResponse) (query : string) (els : Elements)
    (err : Pexels.Error) :
  Server.blank query = false ->
  Pexels.searchPhotos API_KEY fetch (trim query) = Pexels.Thrown err ->
  handleSearch API_KEY fetch endpoint rejection query els =
    {| status :=
         match status els with
         | Some _ => Some {| textContent := NoMessage; tone := "info" |}
         | None => None
         end;
       results :=
         [Markup (error_markup (or_else (Some (message_of rejection err))
                                        "Something went wrong."))];
       taResults := match taResults els with Some _ => Some [] | None => None end |}.
Proof.
  intros Hb Herr. unfold handleSearch.
  rewrite or_else_some_empty, (trim_nonblank _ Hb), Herr.
  destruct els as [[s|] r [t|]]; reflexivity.
Qed.

(** X22.  When [searchPhotos] returns, the results hold one card for each
    photo returned, in the order returned, and no placeholder; before the
    cards stands the note [No results] exactly when there is no photo.  The
    status line, if there is one, then reads [Showing n photos for] the
    trimmed query, with [photo] for [photos] when [n] is 1; it does so
    also when [n] is 0. *)
Theorem handleSearch_shows_photos
    (endpoint : string -> option EndpointResponse) (query : string) (els : Elements)
    (photos : list Pexels.Photo) :
  Server.blank query = false ->
  Pexels.searchPhotos API_KEY fetch (trim query) = Pexels.Returned photos ->
  results (handleSearch API_KEY fetch endpoint rejection query els)
  = ((match photos with [] => [Empty NoResults] | _ => [] end)
     ++ map (fun p => Photo (createPhotoCard p)) photos)%list
  /\ status (handleSearch API_KEY fetch endpoint rejection query els)
     = match status els with
       | Some _ =>
           Some {| textContent :=
                     Showing (List.length photos)
                       (if Nat.eqb (List.length photos) 1 then "photo" else "photos")
                       (trim query);
                   tone := "info" |}
       | None => None
       end.
Proof.
  intros Hb Hret. unfold handleSearch.
  rewrite or_else_some_empty, (trim_nonblank _ Hb), Hret.
  destruct els as [[s|] r [t|]], photos as [|p [|p' ps]]; split; reflexivity.
Qed.

(** X23.  What the endpoint answers, or that it does not answer, has no
    effect on the results and on the status line: two runs that differ in
    the endpoint alone show the same photos and the same status. *)
Theorem handleSearch_endpoint_isolated
    (endpoint1 endpoint2 : string -> option EndpointResponse)
    (query : string) (els : Elements) :
  results (handleSearch API_KEY fetch endpoint1 rejection query els)
  = results (handleSearch API_KEY fetch endpoint2 rejection query els)
  /\ status (handleSearch API_KEY fetch endpoint1 rejection query els)
     = status (handleSearch API_KEY fetch endpoint2 rejection query els).
Proof.
  unfold handleSearch. destruct (falsy _); [auto|].
  destruct (Pexels.searchPhotos API_KEY fetch _) as [photos|err]; [|auto].
  unfold show_ta. destruct els as [[s|] r [t|]], photos as [|p ps]; split; reflexivity.
Qed.

(** X24.  When [searchPhotos] returns and the page has a TripAdvisor
    container, that container ends with the note [No TripAdvisor images
    found] if the request to the endpoint was rejected, or its response
    not [ok], or its [images] missing or empty; otherwise with one card for
    each of the first 10 images of the response, in their order, so with at
    most 10 cards.  What the container held before is gone. *)
Theorem handleSearch_ta_container
    (endpoint : string -> option EndpointResponse) (query : string) (els : Elements)
    (photos : list Pexels.Photo) (before : list Node) :
  Server.blank query = false ->
  Pexels.searchPhotos API_KEY fetch (trim query) = Pexels.Returned photos ->
  taResults els = Some before ->
  exists after,
    taResults (handleSearch API_KEY fetch endpoint rejection query els) = Some after
    /\ (List.length after <= 10)%nat
    /\ after =
         match endpoint (trim query) with
         | Some {| ok := true; images := Some (img :: imgs) |} =>
             map (fun i => TripAdvisor (createTaCard i)) (firstn 10 (img :: imgs))
         | _ => [Empty NoTripAdvisorImages]
         end.
Proof.
  intros Hb Hret Hta. unfold handleSearch.
  rewrite or_else_some_empty, (trim_nonblank _ Hb), Hret.
  unfold searchTripAdvisorImages, show_ta. cbv zeta.
  rewrite !slice0_nonneg by lia. change (Z.to_nat 10) with 10%nat.
  destruct els as [s r t]. simpl in Hta. subst t.
  destruct (endpoint (trim query)) as [[[|] [[|img imgs]|]]|];
    destruct s, photos; cbn -[firstn]; eexists; (split; [reflexivity|]); split;
    try reflexivity; rewrite ?length_map, ?length_firstn; cbn [List.length]; lia.
Qed.
End ClientFacts.

Section ClientWitnesses.
Import JsString Client.
Local Open Scope string_scope.

Lemma handleSearch_blank_witness :
  handleSearch "key" (fun _ => None) (fun _ => None) "Failed to fetch" "   " blank_page
  = blank_page.
Proof.
  apply (@handleSearch_blank "key" (fun _ => None) "Failed to fetch" (fun _ => None)
           "   " blank_page).
  reflexivity.
Defined.

Lemma handleSearch_error_witness :
  handleSearch "key" (fun _ => Some too_many_requests) twelve_images
               "Failed to fetch" " Eiffel Tower " blank_page =
    {| status :=
         match status blank_page with
         | Some _ => Some {| textContent := NoMessage; tone := "info" |}
         | None => None
         end;
       results :=
         [Markup (error_markup (or_else (Some (message_of "Failed to fetch"
                                                 (Pexels.RequestFailed 429 "")))
                                        "Something went wrong."))];
       taResults :=
         match taResults blank_page with Some _ => Some [] | None => None end |}.
Proof.
  apply (@handleSearch_error "key" (fun _ => Some too_many_requests) "Failed to fetch"
           twelve_images " Eiffel Tower " blank_page (Pexels.RequestFailed 429 ""));
    reflexivity.
Defined.

(** There the note reads [Request failed (429): Unknown error]. *)
Example handleSearch_error_note :
  results (handleSearch "key" (fun _ => Some too_many_requests) twelve_images
                        "Failed to fetch" " Eiffel Tower " blank_page)
  = [Markup (error_markup "Request failed (429): Unknown error")].
Proof. reflexivity. Qed.

(** The text of a response that is not [ok] reaches the markup as it is,
    tags and all. *)
Example handleSearch_error_tags :
  results (handleSearch "key"
             (fun _ => Some {| Pexels.ok := false; Pexels.status := 500;
                               Pexels.text := "<b>down</b><i>soon</i>";
                               Pexels.json := {| Pexels.photos := None |} |})
             twelve_images "Failed to fetch" " Eiffel Tower " blank_page)
  = [Markup (error_markup "Request failed (500): <b>down</b><i>soon</i>")].
Proof. reflexivity. Qed.

Lemma handleSearch_shows_photos_witness :
  results (handleSearch "key" (fun _ => Some (Samples.respond_with [])) twelve_images
                        "Failed to fetch" " Eiffel Tower " blank_page)
  = ([Empty NoResults] ++ map (fun p => Photo (createPhotoCard p)) [])%list
  /\ status (handleSearch "key" (fun _ => Some (Samples.respond_with [])) twelve_images
                          "Failed to fetch" " Eiffel Tower " blank_page)
     = match status blank_page with
       | Some _ =>
           Some {| textContent :=
                     Showing (List.length (@nil Pexels.Photo))
                       (if Nat.eqb (List.length (@nil Pexels.Photo)) 1
                        then "photo" else "photos")
                       (trim " Eiffel Tower ");
                   tone := "info" |}
       | None => None
       end.
Proof.
  apply (@handleSearch_shows_photos "key" (fun _ => Some (Samples.respond_with []))
           "Failed to fetch" twelve_images " Eiffel Tower " blank_page []);
    reflexivity.
Defined.

Lemma handleSearch_ta_container_witness :
  exists after,
    taResults (handleSearch "key" (fun _ => Some (Samples.respond_with [])) twelve_images
                            "Failed to fetch" " Eiffel Tower " blank_page) = Some after
    /\ (List.length after <= 10)%nat
    /\ after =
         match twelve_images (trim " Eiffel Tower ") with
         | Some {| ok := true; images := Some (img :: imgs) |} =>
             map (fun i => TripAdvisor (createTaCard i)) (firstn 10 (img :: imgs))
         | _ => [Empty NoTripAdvisorImages]
         end.
Proof.
  apply (@handleSearch_ta_container "key" (fun _ => Some (Samples.respond_with []))
           "Failed to fetch" twelve_images " Eiffel Tower " blank_page [] []);
    reflexivity.
Defined.
End ClientWitnesses.

(* ================================================================== *)
(** * The browser script and the endpoint together *)
(* ================================================================== *)

Section EndToEnd.
Import JsString Client.
Local Open Scope string_scope.

Lemma handler_body_status
    (req : Server.HttpRequest) (net : Server.Network) (st st' : Server.State)
    (r : Server.HttpResponse) :
  Server.handler req net st = (Server.Ok r, st') ->
  match Server.json r with
  | Server.JsonImages l _ => Server.status r = 200 /\ (List.length l <= 10)%nat
  | Server.JsonError _ => Server.status r = 400 \/ Server.status r = 500
  end.
Proof.
  destruct (falsy (Server.handler_query req)) eqn:Hq.
  - unfold Server.handler, Server.respond. rewrite Hq. intros [= <- _]. simpl. auto.
  - destruct (handler_cases req net st Hq)
      as [imgs [st1 [_ [Hlen [_ [_ [[_ H]|[[_ [w [st2 [Hw H]]]]|[_ [e [st2 [_ H]]]]]]]]]]]];
      rewrite H; intros [= <- _]; simpl; auto.
    + split; [reflexivity | lia].
    + apply fetchWikipediaImages_length in Hw; [|lia]. split; [reflexivity | lia].
Qed.

(** X25.  With the endpoint served by the handler, a search that shows
    photos fills the TripAdvisor container with one card for each image of
    the handler's answer, all of them and in their order, be they scraped
    or from Wikipedia; and with the note [No TripAdvisor images found] when
    the handler's answer has no image or is an error: an error of the
    endpoint is never shown as an error on the page. *)
Theorem handleSearch_shows_handler_images
    (API_KEY : string) (fetch : Pexels.Request -> option Pexels.Response)
    (rejection : string) (net : Server.Network)
    (query : string) (els : Elements) (photos : list Pexels.Photo)
    (before : list Node) (r : Server.HttpResponse) (st' : Server.State) :
  Server.blank query = false ->
  Pexels.searchPhotos API_KEY fetch (trim query) = Pexels.Returned photos ->
  taResults els = Some before ->
  Server.handler
    {| Server.query := Some {| Server.q := Some (trim query) |}; Server.body := None |}
    net Server.initial = (Server.Ok r, st') ->
  taResults (handleSearch API_KEY fetch (served net) rejection query els)
  = Some match Server.json r with
         | Server.JsonImages (img :: imgs) _ =>
             map (fun i => TripAdvisor (createTaCard i)) (img :: imgs)
         | _ => [Empty NoTripAdvisorImages]
         end.
Proof.
  intros Hb Hret Hta Hh. pose proof (handler_body_status _ _ _ Hh) as Hbody.
  unfold handleSearch.
  rewrite or_else_some_empty, (trim_nonblank _ Hb), Hret.
  unfold searchTripAdvisorImages, served, show_ta. cbv zeta. rewrite Hh. cbn [fst].
  rewrite !slice0_nonneg by lia. change (Z.to_nat 10) with 10%nat.
  destruct els as [s res t]. simpl in Hta. subst t.
  destruct r as [code body]. cbn [Server.status Server.json ok images] in *.
  destruct body as [msg|[|img imgs] tag].
  - assert (E : ((200 <=? code) && (code <=? 299))%Z = false)
      by (destruct Hbody as [-> | ->]; reflexivity).
    rewrite E. destruct s, photos; reflexivity.
  - destruct Hbody as [-> _]. destruct s, photos; reflexivity.
  - destruct Hbody as [-> Hlen].
    destruct s, photos; cbn -[firstn]; rewrite firstn_all2 by exact Hlen; reflexivity.
Qed.

Lemma handleSearch_shows_handler_images_witness :
  taResults (handleSearch "key" (fun _ => Some (Samples.respond_with Samples.six_large))
               (served Samples.wiki_only_network) "Failed to fetch"
               " Eiffel Tower " blank_page)
  = Some (map (fun i => TripAdvisor (createTaCard i))
            [{| Server.src := "https://upload.wikimedia.org/a/Tour_Eiffel.JPG";
                Server.alt := "Eiffel Tower (Wikipedia)" |};
             {| Server.src := "https://upload.wikimedia.org/a/Paris.png";
                Server.alt := "Eiffel Tower (Wikipedia)" |}]).
Proof.
  eapply (@handleSearch_shows_handler_images "key"
            (fun _ => Some (Samples.respond_with Samples.six_large))
            "Failed to fetch" Samples.wiki_only_network " Eiffel Tower " blank_page
            _ []
            {| Server.status := 200;
               Server.json := Server.JsonImages
                 [{| Server.src := "https://upload.wikimedia.org/a/Tour_Eiffel.JPG";
                     Server.alt := "Eiffel Tower (Wikipedia)" |};
                  {| Server.src := "https://upload.wikimedia.org/a/Paris.png";
                     Server.alt := "Eiffel Tower (Wikipedia)" |}]
                 (Some "wikipedia") |});
    reflexivity.
Defined.

(** X26.  The image of a photo card has a source whenever the photo has
    one in any of its four sizes: the source of the card is empty only
    when [large2x], [large], [medium] and [original] are all empty, and it
    is always one of the four. *)
Theorem createPhotoCard_img_src (photo : Pexels.Photo) :
  (img_src (createPhotoCard photo) = ""
   <-> Pexels.large2x (Pexels.src photo) = ""
       /\ Pexels.large (Pexels.src photo) = ""
       /\ Pexels.medium (Pexels.src photo) = ""
       /\ Pexels.original (Pexels.src photo) = "")
  /\ In (img_src (createPhotoCard photo))
        [Pexels.large2x (Pexels.src photo); Pexels.large (Pexels.src photo);
         Pexels.medium (Pexels.src photo); Pexels.original (Pexels.src photo)].
Proof.
  destruct photo as [i w h u ph phu a [o l2 l m]]. simpl.
  destruct l2, l, m, o; simpl; repeat split; intros; try discriminate;
    intuition discriminate.
Qed.
End EndToEnd.
